(** * es2csv: the export pipeline of [src/esxport.py]

    A shallow embedding of the [retry] decorator and of the class [EsXport]
    (index check, field validation, query preparation, scroll loop, staging
    file, CSV materialization), with the properties of the export pipeline
    proved over it.

    Conventions of the embedding.
    - Python integers are [Z]; strings are [string]; a Python [dict] is an
      association list in insertion order (the order is observable: it
      becomes the CSV header).
    - The object [self] and the outside world (cluster, the two files, log,
      clock) are threaded explicitly through a state-and-exception monad.
    - The cluster is an oracle: the reply to the n-th call of an operation.
      The program is deterministic, so this covers every cluster behaviour.
    - [json.dumps]/[json.loads] and [csv.DictWriter] are library code: a line
      of the staging file is represented by the JSON value it denotes (or by
      its text when it does not parse), a CSV file by its delimiter and the
      rows of cells handed to the writer.
    - The scroll loop may run for ever: it is given a fuel, the number of
      tests of its condition it may make, and [OutOfFuel] is the outcome
      of a run that is cut off; the state it returns then is the state at
      that test, so a property of every fuel is a property of every point
      of the loop.
    - [tqdm] progress bars and [logger.debug] output have no effect on
      behaviour and are left out. *)

From stdpp Require Import base option list strings gmap numbers.
From Stdlib Require Import ZArith Ascii DecimalString.

Local Open Scope Z_scope.
Local Open Scope string_scope.
Local Open Scope list_scope.

(** ** Module constants *)

Definition FLUSH_BUFFER : nat := 1000.
Definition CONNECTION_TIMEOUT : Z := 120.
Definition TIMES_TO_TRY : Z := 3.
Definition RETRY_DELAY : Z := 60.
Definition META_FIELDS : list string := ["_id"; "_index"; "_score"].

(** ** JSON values and Python dictionaries *)

#[warnings="-register-all"]
Inductive json : Type :=
| JNull
| JBool (b : bool)
| JInt (n : Z)
| JFloat (literal : string)
| JStr (s : string)
| JArr (items : list json)
| JObj (members : list (string * json)).

(** A [dict] with string keys, in insertion order. *)
Definition dict : Type := list (string * json).

Fixpoint dict_get (k : string) (d : dict) : option json :=
  match d with
  | [] => None
  | (k', v) :: d' => if decide (k = k') then Some v else dict_get k d'
  end.

(** [d.get(k, None)] *)
Definition dict_get_default (k : string) (d : dict) : json :=
  default JNull (dict_get k d).

(** [d.keys()] *)
Definition dict_keys (d : dict) : list string := map fst d.

(** [d[k] = v]: an existing key keeps its position, a new key goes last. *)
Fixpoint dict_set (k : string) (v : json) (d : dict) : dict :=
  match d with
  | [] => [(k, v)]
  | (k', v') :: d' =>
      if decide (k = k') then (k, v) :: d' else (k', v') :: dict_set k v d'
  end.

(** [d.pop(k, None)], result dropped (keys of a Python dict are unique). *)
Fixpoint dict_pop (k : string) (d : dict) : dict :=
  match d with
  | [] => []
  | (k', v) :: d' =>
      if decide (k = k') then dict_pop k d' else (k', v) :: dict_pop k d'
  end.

(** [k in d] *)
Definition dict_has (k : string) (d : dict) : bool :=
  bool_decide (k ∈ dict_keys d).

(** ** Strings *)

(** [sep.join(l)] *)
Fixpoint join (sep : string) (l : list string) : string :=
  match l with
  | [] => EmptyString
  | [s] => s
  | s :: l' => s +:+ sep +:+ join sep l'
  end.

(** [s.split(c)] for a one-character separator: never empty. *)
Fixpoint split (c : ascii) (s : string) : list string :=
  match s with
  | EmptyString => [EmptyString]
  | String a s' =>
      if decide (a = c) then EmptyString :: split c s'
      else match split c s' with
           | [] => [String a EmptyString]
           | p :: ps => String a p :: ps
           end
  end.

Definition str_of_Z (n : Z) : string := NilZero.string_of_int (Z.to_int n).

(** ** Exceptions and results *)

Inductive exn : Type :=
| ConnectionError (msg : string)
| SystemExit (code : Z)
| KeyError (key : string)
| ValueError (msg : string)
| AttributeError (msg : string)
| JSONDecodeError
| TypeError (msg : string)
| StopIteration
| FileNotFoundError (path : string).

Definition exn_str (e : exn) : string :=
  match e with
  | ConnectionError msg => msg
  | SystemExit code => str_of_Z code
  | KeyError key => "'" +:+ key +:+ "'"
  | ValueError msg => msg
  | AttributeError msg => msg
  | TypeError msg => msg
  | JSONDecodeError => "Expecting value"
  | StopIteration => EmptyString
  | FileNotFoundError path => "[Errno 2] No such file or directory: '" +:+ path +:+ "'"
  end.

Definition is_ConnectionError (e : exn) : bool :=
  match e with ConnectionError _ => true | _ => false end.

(** The outcome of a call: a value, an exception, or a loop that was cut
    off by the fuel of the model. *)
Inductive result (A : Type) : Type :=
| Ok (a : A)
| Raise (e : exn)
| OutOfFuel.
Arguments Ok {A} a.
Arguments Raise {A} e.
Arguments OutOfFuel {A}.

(** ** The hit records, pages and schemas the cluster returns *)

(** One element of [res["hits"]["hits"]]: ["_source"] and the metadata. *)
Definition hit : Type := dict.

(** A search or scroll response. *)
Record page : Type := Page {
  scroll_id : string;     (* res["_scroll_id"] *)
  total_value : Z;        (* res["hits"]["total"]["value"] *)
  hits : list hit         (* res["hits"]["hits"] *)
}.

(** [get_mapping(index).raw]: index name to the keys of
    [["mappings"]["properties"]], [None] when the index has no properties. *)
Definition mapping : Type := list (string * option (list string)).

(** What a call to the cluster does: it replies or raises the transient
    connectivity error. *)
Inductive outcome (A : Type) : Type :=
| Reply (a : A)
| Fail (msg : string).
Arguments Reply {A} a.
Arguments Fail {A} msg.

(** ** Configuration *)

(** Modelled from the spec: the class [CliOptions] of
    [src/click_opt/cli_options.py], which is not part of the sources at hand;
    the fields are the ones [esxport.py] reads (the credentials and
    certificates, used only to build the client, are left out). *)
Record CliOptions : Type := {
  url : string;
  index_prefixes : list string;
  fields : list string;
  meta_fields : list string;
  query : json;
  sort : list (list (string * string));
  scroll_size : Z;
  max_results : Z;
  output_file : string;
  delimiter : ascii;
  debug : bool
}.

Definition set_index_prefixes (l : list string) (o : CliOptions) : CliOptions :=
  {| url := url o; index_prefixes := l; fields := fields o;
     meta_fields := meta_fields o; query := query o; sort := sort o;
     scroll_size := scroll_size o; max_results := max_results o;
     output_file := output_file o; delimiter := delimiter o; debug := debug o |}.

(** [self.search_args] once [prepare_search_query] has filled it; the empty
    dictionary it starts as is [None]. *)
Record search_args_t : Type := {
  sa_index : string;
  sa_scroll : string;
  sa_size : Z;
  sa_terminate_after : Z;
  sa_body : json;
  sa_sort : option (list (list (string * string)));
  sa_source_includes : option string
}.

(** ** The world *)

Inductive request : Type :=
| ReqHealth
| ReqIndicesExists (index : list string)
| ReqGetMapping (index : string)
| ReqSearch (args : option search_args_t)
| ReqScroll (scroll : string) (sid : string)
| ReqClearScroll (sid : string).

Inductive level : Type := INFO | ERROR.

Inductive event : Type :=
| EvCall (r : request)
| EvSleep (seconds : Z)
| EvLog (lvl : level) (msg : string).

(** The cluster behind [ElasticsearchClient]: the reply to the n-th call
    (counted from 0) of each operation, given its arguments. *)
Record cluster : Type := {
  cl_health : nat -> outcome unit;
  cl_indices_exists : nat -> list string -> outcome bool;
  cl_get_mapping : nat -> string -> outcome mapping;
  cl_search : nat -> option search_args_t -> outcome page;
  cl_scroll : nat -> string -> string -> outcome page;
  cl_clear_scroll : nat -> string -> outcome unit
}.

(** A line of the staging file. *)
Inductive line : Type :=
| Json (v : json)
| Malformed (text : string).

(** The output file, as written through [csv.DictWriter]. *)
Record csv_file : Type := {
  csv_delimiter : ascii;
  csv_rows : list (list json)
}.

Record world : Type := {
  es : cluster;
  staging : option (list line);     (* the file [self.tmp_file] *)
  output : option csv_file;         (* the file [self.opts.output_file] *)
  trace : list event                (* oldest first *)
}.

(** The object [self]. *)
Record EsXport : Type := {
  opts : CliOptions;
  search_args : option search_args_t;
  num_results : Z;
  scroll_ids : list string;
  scroll_time : string;
  csv_headers : list string;
  tmp_file : string;
  rows_written : Z
}.

Record machine : Type := { self : EsXport; env : world }.

(** [EsXport.__init__] *)
Definition init (o : CliOptions) : EsXport :=
  {| opts := o; search_args := None; num_results := 0; scroll_ids := [];
     scroll_time := "30m"; csv_headers := [];
     tmp_file := output_file o +:+ ".tmp"; rows_written := 0 |}.

(** ** The monad of methods: state and exceptions *)

Definition M (A : Type) : Type := machine -> result A * machine.

Definition ret {A} (a : A) : M A := fun m => (Ok a, m).

Definition bind {A B} (c : M A) (k : A -> M B) : M B :=
  fun m =>
    match c m with
    | (Ok a, m') => k a m'
    | (Raise e, m') => (Raise e, m')
    | (OutOfFuel, m') => (OutOfFuel, m')
    end.

Definition raise {A} (e : exn) : M A := fun m => (Raise e, m).

(** [try: c  except exception_to_check as e: h e] *)
Definition try_except {A} (c : M A) (catches : exn -> bool) (h : exn -> M A) : M A :=
  fun m =>
    match c m with
    | (Raise e, m') => if catches e then h e m' else (Raise e, m')
    | r => r
    end.

Declare Scope M_scope.
Delimit Scope M_scope with M.
Notation "x <- c ;; k" := (bind c (fun x => k))
  (at level 100, c at next level, right associativity) : M_scope.
Notation "c ;; k" := (bind c (fun _ => k))
  (at level 100, right associativity) : M_scope.
Local Open Scope M_scope.

Definition get_self : M EsXport := fun m => (Ok (self m), m).
Definition put_self (s : EsXport) : M unit :=
  fun m => (Ok tt, {| self := s; env := env m |}).
Definition get_env : M world := fun m => (Ok (env m), m).
Definition put_env (w : world) : M unit :=
  fun m => (Ok tt, {| self := self m; env := w |}).

(** Updates of the fields of [self] that the methods assign. *)
Definition with_opts (o : CliOptions) (s : EsXport) : EsXport :=
  {| opts := o; search_args := search_args s; num_results := num_results s;
     scroll_ids := scroll_ids s; scroll_time := scroll_time s;
     csv_headers := csv_headers s; tmp_file := tmp_file s;
     rows_written := rows_written s |}.
Definition with_search_args (a : search_args_t) (s : EsXport) : EsXport :=
  {| opts := opts s; search_args := Some a; num_results := num_results s;
     scroll_ids := scroll_ids s; scroll_time := scroll_time s;
     csv_headers := csv_headers s; tmp_file := tmp_file s;
     rows_written := rows_written s |}.
Definition with_num_results (n : Z) (s : EsXport) : EsXport :=
  {| opts := opts s; search_args := search_args s; num_results := n;
     scroll_ids := scroll_ids s; scroll_time := scroll_time s;
     csv_headers := csv_headers s; tmp_file := tmp_file s;
     rows_written := rows_written s |}.
Definition with_scroll_ids (l : list string) (s : EsXport) : EsXport :=
  {| opts := opts s; search_args := search_args s; num_results := num_results s;
     scroll_ids := l; scroll_time := scroll_time s;
     csv_headers := csv_headers s; tmp_file := tmp_file s;
     rows_written := rows_written s |}.
Definition with_csv_headers (l : list string) (s : EsXport) : EsXport :=
  {| opts := opts s; search_args := search_args s; num_results := num_results s;
     scroll_ids := scroll_ids s; scroll_time := scroll_time s;
     csv_headers := l; tmp_file := tmp_file s;
     rows_written := rows_written s |}.
Definition with_rows_written (n : Z) (s : EsXport) : EsXport :=
  {| opts := opts s; search_args := search_args s; num_results := num_results s;
     scroll_ids := scroll_ids s; scroll_time := scroll_time s;
     csv_headers := csv_headers s; tmp_file := tmp_file s;
     rows_written := n |}.

Definition modify_self (f : EsXport -> EsXport) : M unit :=
  fun m => (Ok tt, {| self := f (self m); env := env m |}).

(** Updates of the world. *)
Definition with_staging (f : option (list line)) (w : world) : world :=
  {| es := es w; staging := f; output := output w; trace := trace w |}.
Definition with_output (f : option csv_file) (w : world) : world :=
  {| es := es w; staging := staging w; output := f; trace := trace w |}.
Definition with_event (e : event) (w : world) : world :=
  {| es := es w; staging := staging w; output := output w;
     trace := trace w ++ [e] |}.

Definition modify_env (f : world -> world) : M unit :=
  fun m => (Ok tt, {| self := self m; env := f (env m) |}).

Definition emit (e : event) : M unit := modify_env (with_event e).

(** [logger.info], [logger.error] (and [logger.exception]), [time.sleep],
    [sys.exit]. *)
Definition log_info (msg : string) : M unit := emit (EvLog INFO msg).
Definition log_error (msg : string) : M unit := emit (EvLog ERROR msg).
Definition sleep (seconds : Z) : M unit := emit (EvSleep seconds).
Definition sys_exit {A} (code : Z) : M A := raise (SystemExit code).

(** ** [ElasticsearchClient] *)

Definition is_health (e : event) : bool :=
  match e with EvCall ReqHealth => true | _ => false end.
Definition is_indices_exists (e : event) : bool :=
  match e with EvCall (ReqIndicesExists _) => true | _ => false end.
Definition is_get_mapping (e : event) : bool :=
  match e with EvCall (ReqGetMapping _) => true | _ => false end.
Definition is_search (e : event) : bool :=
  match e with EvCall (ReqSearch _) => true | _ => false end.
Definition is_scroll (e : event) : bool :=
  match e with EvCall (ReqScroll _ _) => true | _ => false end.
Definition is_clear_scroll (e : event) : bool :=
  match e with EvCall (ReqClearScroll _) => true | _ => false end.

(** How many calls of a kind the trace holds. *)
Definition calls (kind : event -> bool) (t : list event) : nat :=
  List.length (List.filter kind t).

(** One round trip: the request is recorded, the oracle answers it. *)
Definition call {A} (kind : event -> bool) (r : request)
    (answer : cluster -> nat -> outcome A) : M A :=
  w <- get_env ;;
  emit (EvCall r) ;;
  match answer (es w) (calls kind (trace w)) with
  | Reply a => ret a
  | Fail msg => raise (ConnectionError msg)
  end.

Definition cluster_health : M unit :=
  call is_health ReqHealth cl_health.

Definition indices_exists (index : list string) : M bool :=
  call is_indices_exists (ReqIndicesExists index)
       (fun c n => cl_indices_exists c n index).

Definition get_mapping (index : string) : M mapping :=
  call is_get_mapping (ReqGetMapping index)
       (fun c n => cl_get_mapping c n index).

Definition search (args : option search_args_t) : M page :=
  call is_search (ReqSearch args) (fun c n => cl_search c n args).

Definition scroll (scroll_arg : string) (sid : string) : M page :=
  call is_scroll (ReqScroll scroll_arg sid)
       (fun c n => cl_scroll c n scroll_arg sid).

Definition clear_scroll (sid : string) : M unit :=
  call is_clear_scroll (ReqClearScroll sid)
       (fun c n => cl_clear_scroll c n sid).

(** ** The [retry] decorator *)

(** The [while mtries > 0] loop of [f_retry], then the final attempt. *)
Fixpoint f_retry {A} (exception_to_check : exn -> bool) (mtries : nat)
    (delay : Z) (f : M A) : M A :=
  match mtries with
  | S mtries' =>
      try_except f exception_to_check (fun e =>
        log_error (exn_str e) ;;
        log_info ("Retrying in " +:+ str_of_Z delay +:+ " seconds ...") ;;
        sleep delay ;;
        f_retry exception_to_check mtries' delay f)
  | O =>
      try_except f exception_to_check (fun e =>
        log_error ("Fatal Error: " +:+ exn_str e) ;;
        sys_exit 1)
  end.

Definition retry {A} (exception_to_check : exn -> bool) (tries : Z)
    (delay : Z) (f : M A) : M A :=
  f_retry exception_to_check (Z.to_nat tries) delay f.

(** ** Loops *)

(** [for x in l: acc = body(x, acc)] *)
Fixpoint for_each {A S} (l : list A) (body : A -> S -> M S) (acc : S) : M S :=
  match l with
  | [] => ret acc
  | x :: l' => acc' <- body x acc ;; for_each l' body acc'
  end.

Definition out_of_fuel {A} : M A := fun m => (OutOfFuel, m).

(** ** [EsXport]: connection and index check *)

Definition create_connection : M unit :=
  retry is_ConnectionError TIMES_TO_TRY RETRY_DELAY cluster_health.

(** The body of [check_indexes], under the decorator. *)
Definition check_indexes_body : M unit :=
  s <- get_self ;;
  let indexes := index_prefixes (opts s) in
  indexes' <-
    (if bool_decide ("_all" ∈ indexes) then ret ["_all"]
     else
       indexes_status <- indices_exists indexes ;;
       if negb indexes_status then
         log_error ("Any of index(es) " +:+ join ", " (index_prefixes (opts s))
                    +:+ " does not exist in " +:+ url (opts s) +:+ ".") ;;
         sys_exit 1
       else ret indexes) ;;
  modify_self (fun s => with_opts (set_index_prefixes indexes' (opts s)) s).

Definition check_indexes : M unit :=
  retry is_ConnectionError TIMES_TO_TRY RETRY_DELAY check_indexes_body.

(** ** [EsXport._validate_fields] *)

(** [next(iter(sort_query.keys()))], then the part before the first dot. *)
Definition sort_param (sort_query : list (string * string)) : M string :=
  match sort_query with
  | [] => raise StopIteration
  | (sort_key, _) :: _ =>
      let parts := split "." sort_key in
      ret (match parts with p :: _ => p | [] => sort_key end)
  end.

(** [l.remove(x)]: the first occurrence goes. *)
Fixpoint list_remove (x : string) (l : list string) : list string :=
  match l with
  | [] => []
  | y :: l' => if decide (x = y) then l' else y :: list_remove x l'
  end.

(** The fields to validate: a copy of the output fields, then the root of
    every sort key, less the first ["_all"]. *)
Definition all_expected_fields : M (list string) :=
  s <- get_self ;;
  l <- for_each (sort (opts s))
         (fun sort_query acc => p <- sort_param sort_query ;; ret (acc ++ [p]))
         (fields (opts s)) ;;
  ret (if bool_decide ("_all" ∈ l) then list_remove "_all" l else l).

(** [response.get(index)] *)
Definition mapping_get (index : string) (response : mapping)
    : option (option (list string)) :=
  snd <$> List.find (fun kv => bool_decide (kv.1 = index)) response.

(** [response[index]["mappings"]["properties"]] *)
Definition properties_of (index : string) (response : mapping) : M (list string) :=
  match mapping_get index response with
  | None => raise (KeyError index)
  | Some None => raise (KeyError "properties")
  | Some (Some props) => ret props
  end.

(** The loop over the indices that fills [all_fields_dict]. *)
Definition fetch_fields (indices_names : list string) : M (gmap string (list string)) :=
  for_each indices_names
    (fun index (all_fields_dict : gmap string (list string)) =>
       response <- get_mapping index ;;
       props <- properties_of index response ;;
       ret (<[index := props]> all_fields_dict))
    ∅.

(** The set comprehension over [all_fields_dict.values()]. *)
Definition all_es_fields (all_fields_dict : gmap string (list string)) : gset string :=
  list_to_set (concat (map snd (map_to_list all_fields_dict))).

Definition _validate_fields : M unit :=
  s <- get_self ;;
  let indices_names := index_prefixes (opts s) in
  expected <- all_expected_fields ;;
  all_fields_dict <- fetch_fields indices_names ;;
  let es_fields := all_es_fields all_fields_dict in
  for_each expected
    (fun element (_ : unit) =>
       if bool_decide (element ∉ es_fields) then
         log_error ("Fields " +:+ element +:+ " doesn't exist in any index.") ;;
         sys_exit 1
       else ret tt)
    tt.

(** ** [EsXport.prepare_search_query] *)

Definition prepare_search_query : M unit :=
  s <- get_self ;;
  let o := opts s in
  modify_self (with_search_args
    {| sa_index := join "," (index_prefixes o);
       sa_scroll := scroll_time s;
       sa_size := scroll_size o;
       sa_terminate_after := max_results o;
       sa_body := query o;
       sa_sort := match sort o with [] => None | _ => Some (sort o) end;
       sa_source_includes :=
         if bool_decide ("_all" ∉ fields o) then Some (join "," (fields o))
         else None |}).

(** ** [EsXport.next_scroll] *)

Definition next_scroll (sid : string) : M page :=
  retry is_ConnectionError TIMES_TO_TRY RETRY_DELAY
    (s <- get_self ;; scroll (scroll_time s) sid).

(** ** [EsXport.flush_to_file] *)

Definition json_dumps (data : dict) : line := Json (JObj data).

Definition json_loads (l : line) : M json :=
  match l with
  | Json v => ret v
  | Malformed _ => raise JSONDecodeError
  end.

(** [hit["_source"]], which must be a dictionary for [pop] to work. *)
Definition source_of (h : hit) : M dict :=
  match dict_get "_source" h with
  | None => raise (KeyError "_source")
  | Some (JObj data) => ret data
  | Some (JArr _) => raise (TypeError "pop expected at most 1 argument, got 2")
  | Some _ => raise (AttributeError "object has no attribute 'pop'")
  end.

(** The inner function [add_meta_fields]: [data[fields] = hit.get(fields, None)]
    for every configured metadata field. *)
Definition add_meta_fields (meta : list string) (h : hit) (data : dict) : dict :=
  foldl (fun data fields => dict_set fields (dict_get_default fields h) data)
        data meta.

(** [data] is the very object [hit["_source"]]: with ["_source"] among the
    metadata fields, [data["_source"]] is [data] itself and [json.dumps]
    refuses the cycle. *)
Definition refers_to_itself (meta : list string) : bool :=
  bool_decide ("_source" ∈ meta).

(** The record staged for one hit. *)
Definition staged_record (meta : list string) (data : dict) (h : hit) : dict :=
  add_meta_fields meta h (dict_pop "_meta" data).

(** [tmp_file.write(...)]: the file was opened for appending. *)
Definition append_line (l : line) (w : world) : world :=
  with_staging (Some (default [] (staging w) ++ [l])) w.

(** [Path(self.tmp_file).open(mode="a")]: creates the file when missing. *)
Definition open_append (w : world) : world :=
  with_staging (Some (default [] (staging w))) w.

(** The body of the loop over [hit_list]. *)
Definition flush_hit (h : hit) : M unit :=
  s <- get_self ;;
  data <- source_of h ;;
  let meta := meta_fields (opts s) in
  let data := staged_record meta data h in
  if refers_to_itself meta then raise (ValueError "Circular reference detected")
  else modify_env (append_line (json_dumps data)).

Definition flush_to_file (hit_list : list hit) : M unit :=
  modify_env open_append ;;
  for_each hit_list (fun h (_ : unit) => flush_hit h) tt.

(** ** [EsXport.write_to_temp_file] *)

(** The body of [for hit in res["hits"]["hits"]]; the accumulator is
    [hit_list]. *)
Definition consume_hit (h : hit) (hit_list : list hit) : M (list hit) :=
  modify_self (fun s => with_rows_written (rows_written s + 1) s) ;;
  let hit_list := hit_list ++ [h] in
  if decide (List.length hit_list = FLUSH_BUFFER) then
    flush_to_file hit_list ;; ret []
  else ret hit_list.

(** The [while self.rows_written != total_size] loop; it returns the
    [hit_list] left to flush. *)
Fixpoint scroll_loop (fuel : nat) (total_size : Z) (res : page)
    (hit_list : list hit) : M (list hit) :=
  match fuel with
  | O => out_of_fuel
  | S fuel' =>
      s <- get_self ;;
      if decide (rows_written s = total_size) then ret hit_list
      else
        (if bool_decide (scroll_id res ∉ scroll_ids s) then
           modify_self (fun s => with_scroll_ids (scroll_ids s ++ [scroll_id res]) s)
         else ret tt) ;;
        match hits res with
        | [] =>
            log_info ("Scroll[" +:+ scroll_id res
                      +:+ "] expired(multiple reads?). Saving loaded data.") ;;
            ret hit_list
        | _ =>
            hit_list <- for_each (hits res) consume_hit hit_list ;;
            res <- next_scroll (scroll_id res) ;;
            scroll_loop fuel' total_size res hit_list
        end
  end.

Definition total_size_of (s : EsXport) : Z :=
  Z.min (max_results (opts s)) (num_results s).

Definition write_to_temp_file (fuel : nat) (res : page) : M unit :=
  s <- get_self ;;
  let total_size := total_size_of s in
  hit_list <- scroll_loop fuel total_size res [] ;;
  flush_to_file hit_list.

(** ** [EsXport.search_query] *)

Definition search_query_body (fuel : nat) : M unit :=
  _validate_fields ;;
  prepare_search_query ;;
  s <- get_self ;;
  res <- search (search_args s) ;;
  modify_self (with_num_results (total_value res)) ;;
  log_info ("Found " +:+ str_of_Z (total_value res) +:+ " results.") ;;
  if decide (total_value res > 0) then write_to_temp_file fuel res
  else ret tt.

Definition search_query (fuel : nat) : M unit :=
  retry is_ConnectionError TIMES_TO_TRY RETRY_DELAY (search_query_body fuel).

(** ** [EsXport.write_to_csv] *)

(** [x.keys()] of a parsed line. *)
Definition keys_of (v : json) : M (list string) :=
  match v with
  | JObj d => ret (dict_keys d)
  | _ => raise (AttributeError "object has no attribute 'keys'")
  end.

(** The first line of the staging file, parsed. *)
Definition read_first_line : M json :=
  w <- get_env ;;
  s <- get_self ;;
  match staging w with
  | None => raise (FileNotFoundError (tmp_file s))
  | Some [] => raise JSONDecodeError
  | Some (l :: _) => json_loads l
  end.

(** [Path(self.opts.output_file).open(mode="w")], [csv.DictWriter(...)]. *)
Definition open_output (delim : ascii) (w : world) : world :=
  with_output (Some {| csv_delimiter := delim; csv_rows := [] |}) w.

(** [csv.writer.writerow] on the cells of one row. *)
Definition append_row (cells : list json) (w : world) : world :=
  match output w with
  | Some f =>
      with_output (Some {| csv_delimiter := csv_delimiter f;
                           csv_rows := csv_rows f ++ [cells] |}) w
  | None => w
  end.

(** The cells [DictWriter] emits for a row: [rowdict.get(key, restval)] for
    every field name, [restval] being the empty string. *)
Definition row_cells (fieldnames : list string) (rowdict : dict) : list json :=
  map (fun key => default (JStr EmptyString) (dict_get key rowdict)) fieldnames.

(** [DictWriter.writerow]: a key outside [fieldnames] is refused
    ([extrasaction="raise"]). *)
Definition writerow (fieldnames : list string) (row : json) : M unit :=
  match row with
  | JObj rowdict =>
      if forallb (fun k => bool_decide (k ∈ fieldnames)) (dict_keys rowdict)
      then modify_env (append_row (row_cells fieldnames rowdict))
      else raise (ValueError "dict contains fields not in fieldnames")
  | _ => raise (AttributeError "object has no attribute 'keys'")
  end.

(** [DictWriter.writeheader] *)
Definition writeheader (fieldnames : list string) : M unit :=
  modify_env (append_row (map JStr fieldnames)).

(** [Path(self.tmp_file).unlink()] *)
Definition unlink_tmp : M unit :=
  w <- get_env ;;
  s <- get_self ;;
  match staging w with
  | None => raise (FileNotFoundError (tmp_file s))
  | Some _ => modify_env (with_staging None)
  end.

Definition write_to_csv : M unit :=
  s <- get_self ;;
  (if decide (rows_written s > 0) then
     first_line <- read_first_line ;;
     headers <- keys_of first_line ;;
     modify_self (with_csv_headers headers) ;;
     modify_env (open_output (delimiter (opts s))) ;;
     writeheader headers ;;
     w <- get_env ;;
     match staging w with
     | None => raise (FileNotFoundError (tmp_file s))
     | Some file =>
         for_each file
           (fun l (_ : unit) => row <- json_loads l ;; writerow headers row) tt
     end
   else
     log_info ("There is no docs with selected field(s): "
               +:+ join "," (fields (opts s)) +:+ ".")) ;;
  unlink_tmp.

(** ** [EsXport.clean_scroll_ids] *)

Definition clean_scroll_ids : M unit :=
  try_except (clear_scroll "_all")
    (fun e => match e with SystemExit _ => false | _ => true end)
    (fun _ => ret tt).

(** ** The run *)

(** Modelled from the spec: the entry point that drives [EsXport], which is
    not part of the sources at hand. The spec orders the stages as connect,
    check the indices, search and stream, materialize the CSV, and has the
    scroll cleanup run last whatever the outcome. *)
Definition export (fuel : nat) : M unit :=
  fun m =>
    let '(r, m1) :=
      (create_connection ;; check_indexes ;; search_query fuel ;; write_to_csv) m in
    let '(_, m2) := clean_scroll_ids m1 in
    (r, m2).

(** Modelled from the spec: the exit status of the process, zero on a normal
    end, the code of [sys.exit], and non-zero for an uncaught exception
    ([None] when the model ran out of fuel). *)
Definition exit_status {A} (r : result A) : option Z :=
  match r with
  | Ok _ => Some 0
  | Raise (SystemExit code) => Some code
  | Raise _ => Some 1
  | OutOfFuel => None
  end.

Definition start (o : CliOptions) (w : world) : machine :=
  {| self := init o; env := w |}.

(** * Specification vocabulary

    The notions the properties are stated with: frame conditions, the
    sequence of pages a cluster delivers, what the staging writer and the
    CSV writer make of a record, and sample inputs. *)

(** [keeps proj c]: the method [c] never changes the part [proj] of the
    machine, whatever its outcome. *)
Definition keeps {X A} (proj : machine -> X) (c : M A) : Prop :=
  forall m, proj (c m).2 = proj m.

(** The parts of the machine that the frame conditions speak of. *)
Definition the_output (m : machine) : option csv_file := output (env m).
Definition the_staging (m : machine) : option (list line) := staging (env m).
Definition the_cluster (m : machine) : cluster := es (env m).
Definition the_opts (m : machine) : CliOptions := opts (self m).
Definition the_trace (m : machine) : list event := trace (env m).
Definition the_calls (kind : event -> bool) (m : machine) : nat :=
  calls kind (trace (env m)).
Definition is_sleep (e : event) : bool :=
  match e with EvSleep _ => true | _ => false end.

(** The dictionary under ["_source"], when there is one. *)
Definition hit_source (h : hit) : option dict :=
  match dict_get "_source" h with
  | Some (JObj data) => Some data
  | _ => None
  end.

(** The line the staging writer makes of a hit. *)
Definition staged_line (meta : list string) (h : hit) : line :=
  json_dumps (staged_record meta (default [] (hit_source h)) h).

(** The machine with lines appended to the staging file. *)
Definition stage_lines (ls : list line) (m : machine) : machine :=
  {| self := self m;
     env := with_staging (Some (default [] (staging (env m)) ++ ls)) (env m) |}.

(** [m'] differs from [m] at most in [rows_written] and in the staging
    file. *)
Definition same_rest (m m' : machine) : Prop :=
  with_rows_written 0 (self m') = with_rows_written 0 (self m) /\
  with_staging None (env m') = with_staging None (env m).

(** A hit that carries a ["_source"] dictionary. *)
Definition well_formed (h : hit) : Prop := is_Some (hit_source h).

(** What the staging file will hold once [hit_list] is flushed. *)
Definition pending (m : machine) (hit_list : list hit) : list line :=
  default [] (the_staging m) ++ map (staged_line (meta_fields (the_opts m))) hit_list.

(** What [f_retry] does between a failed attempt and the next one. *)
Definition pause (delay : Z) (e : exn) (m : machine) : machine :=
  {| self := self m;
     env := with_event (EvSleep delay)
              (with_event (EvLog INFO ("Retrying in " +:+ str_of_Z delay +:+ " seconds ..."))
                 (with_event (EvLog ERROR (exn_str e)) (env m))) |}.

(** What it does after the last failed attempt. *)
Definition fatal (e : exn) (m : machine) : machine :=
  {| self := self m;
     env := with_event (EvLog ERROR ("Fatal Error: " +:+ exn_str e)) (env m) |}.

(** [n] attempts in a row, from [m] on, end in the exception the decorator
    catches; [m'] is the machine the next attempt starts from. *)
Inductive fails_in_a_row {A} (catches : exn -> bool) (delay : Z) (f : M A) :
    nat -> machine -> machine -> Prop :=
| fails_none (m : machine) : fails_in_a_row catches delay f 0 m m
| fails_more (n : nat) (m m1 m' : machine) (e : exn) :
    f m = (Raise e, m1) -> catches e = true ->
    fails_in_a_row catches delay f n (pause delay e m1) m' ->
    fails_in_a_row catches delay f (S n) m m'.

(** The pages to come, once the first of them has been delivered. *)
Definition shift (ps : nat -> page) : nat -> page := fun i => ps (S i).

(** The hits the loop consumes in at most [fuel] tests of its condition,
    when [res] is the current page and [ps] the pages the cluster will
    deliver next. *)
Fixpoint seen (fuel : nat) (total rows : Z) (res : page) (ps : nat -> page) : list hit :=
  match fuel with
  | O => []
  | S fuel' =>
      if decide (rows = total) then []
      else match hits res with
           | [] => []
           | hs => hs ++ seen fuel' total (rows + Z.of_nat (List.length hs)) (ps 0%nat) (shift ps)
           end
  end.

(** Whether one of the first [fuel] tests finds [rows_written] equal to the
    expected count, or the page at hand empty. *)
Fixpoint stops_within (fuel : nat) (total rows : Z) (res : page) (ps : nat -> page) : bool :=
  match fuel with
  | O => false
  | S fuel' =>
      if decide (rows = total) then true
      else match hits res with
           | [] => true
           | hs => stops_within fuel' total (rows + Z.of_nat (List.length hs)) (ps 0%nat) (shift ps)
           end
  end.

(** The cluster answers the scroll calls to come with the pages [ps]. *)
Definition delivers (m : machine) (ps : nat -> page) : Prop :=
  forall (i : nat) (a b : string),
    cl_scroll (the_cluster m) (the_calls is_scroll m + i) a b = Reply (ps i).

(** Every hit of every page is well formed. *)
Definition pages_well_formed (res : page) (ps : nat -> page) : Prop :=
  Forall well_formed (hits res) /\ forall i, Forall well_formed (hits (ps i)).

(** No consumed page holds more hits than are still needed. *)
Fixpoint pages_fit (fuel : nat) (total rows : Z) (res : page) (ps : nat -> page) : Prop :=
  match fuel with
  | O => True
  | S fuel' =>
      rows = total \/ hits res = [] \/
      (rows + Z.of_nat (List.length (hits res)) <= total /\
       pages_fit fuel' total (rows + Z.of_nat (List.length (hits res))) (ps 0%nat) (shift ps))
  end.

(** A staged line that [DictWriter] accepts under the field names
    [headers]: a JSON object with no key outside them. *)
Definition fits_header (headers : list string) (l : line) : bool :=
  match l with
  | Json (JObj d) => forallb (fun k => bool_decide (k ∈ headers)) (dict_keys d)
  | _ => false
  end.

(** The data row written for such a line: the line's value under each
    field name in turn, the empty string where it has none. *)
Definition cells_of (headers : list string) (l : line) : list json :=
  match l with
  | Json (JObj d) => row_cells headers d
  | _ => []
  end.

(** The machine with rows appended to the output file [f]. *)
Definition with_rows (f : csv_file) (rows : list (list json)) (m : machine) : machine :=
  {| self := self m;
     env := with_output (Some {| csv_delimiter := csv_delimiter f;
                                 csv_rows := csv_rows f ++ rows |}) (env m) |}.

(** The events of a kind, in order. *)
Definition the_events (kind : event -> bool) (m : machine) : list event :=
  List.filter kind (the_trace m).

(** [never_ce c]: the method [c] never raises the connectivity error. *)
Definition never_ce {A} (c : M A) : Prop :=
  forall m e m', c m = (Raise e, m') -> is_ConnectionError e = false.

(** [quiet proj c]: when [c] ends in the connectivity error, [proj] is as
    before. *)
Definition quiet {X A} (proj : machine -> X) (c : M A) : Prop :=
  forall m e m', c m = (Raise e, m') -> is_ConnectionError e = true -> proj m' = proj m.

(** The top-level component of the first key of a sort specification. *)
Definition sort_root (sort_query : list (string * string)) : string :=
  match sort_query with
  | [] => EmptyString
  | (sort_key, _) :: _ =>
      match split "." sort_key with p :: _ => p | [] => sort_key end
  end.

(** The sort-key roots [_validate_fields] adds to the fields to check. *)
Definition sort_roots (l : list (list (string * string))) : list string :=
  map sort_root l.

(** The mapping lookups of the cluster [cl] answer, for every target
    index, with the properties [schema] gives it. *)
Definition has_schema (cl : cluster) (indices : list string)
    (schema : string -> list string) : Prop :=
  forall (n : nat) (index : string),
    index ∈ indices ->
    exists response,
      cl_get_mapping cl n index = Reply response /\
      mapping_get index response = Some (Some (schema index)).

(** The dictionary [all_fields_dict] once the indices have been visited. *)
Definition fields_dict (schema : string -> list string) (indices : list string)
    (acc : gmap string (list string)) : gmap string (list string) :=
  foldl (fun d index => <[index := schema index]> d) acc indices.

(** ** Sample configurations, hits and clusters *)

Definition sample_opts (flds meta : list string)
    (srt : list (list (string * string))) (max : Z) : CliOptions :=
  {| url := "http://localhost:9200"; index_prefixes := ["logs"];
     fields := flds; meta_fields := meta;
     query := JObj [("query", JObj [("match_all", JObj [])])];
     sort := srt; scroll_size := 2; max_results := max;
     output_file := "out.csv"; delimiter := ","; debug := false |}.

(** A hit whose source has keys of its own named ["_id"] and ["_meta"]. *)
Definition sample_hit (id : string) (n : Z) : hit :=
  [("_index", JStr "logs"); ("_id", JStr id); ("_score", JFloat "1.0");
   ("_source", JObj [("title", JStr "t"); ("_id", JStr "in-source");
                     ("_meta", JObj []); ("n", JInt n)])].

Definition sample_page (total : Z) (hs : list hit) : page :=
  {| scroll_id := "c2Nyb2xs"; total_value := total; hits := hs |}.

(** Scroll replies: one more hit, then nothing. *)
Definition sample_next (total : Z) : nat -> page :=
  fun i => match i with
           | O => sample_page total [sample_hit "c" 3]
           | S _ => sample_page total []
           end.

(** A cluster with the index [logs] of properties [title] and [n]; its
    searches fail [failures] times before the first page comes. *)
Definition sample_cluster (found : bool) (failures : nat) (first : page)
    (next : nat -> page) : cluster :=
  {| cl_health := fun _ => Reply tt;
     cl_indices_exists := fun _ _ => Reply found;
     cl_get_mapping := fun _ index => Reply [(index, Some ["title"; "n"])];
     cl_search := fun n _ => if (n <? failures)%nat then Fail "Connection timed out"
                             else Reply first;
     cl_scroll := fun n _ _ => Reply (next n);
     cl_clear_scroll := fun _ _ => Reply tt |}.

Definition sample_world (cl : cluster) (tmp : option (list line)) : world :=
  {| es := cl; staging := tmp; output := None; trace := [] |}.

(** The machine when the streaming phase starts: the search has reported
    [total] results. *)
Definition streaming (o : CliOptions) (total : Z) (w : world) : machine :=
  {| self := with_num_results total (init o); env := w |}.

(** The machine when materialization starts with [rows] rows written. *)
Definition materializing (o : CliOptions) (rows : Z) (w : world) : machine :=
  {| self := with_rows_written rows (init o); env := w |}.

(** The machine an attempt starts from when the one before, from [m], has
    failed; and whether [n] attempts in a row fail from [m] on. *)
Definition after_failure {A} (delay : Z) (f : M A) (m : machine) : machine :=
  match f m with
  | (Raise e, m1) => pause delay e m1
  | (_, m1) => m1
  end.

Fixpoint after_failures {A} (n : nat) (delay : Z) (f : M A) (m : machine) : machine :=
  match n with
  | O => m
  | S n' => after_failures n' delay f (after_failure delay f m)
  end.

Fixpoint attempts_fail {A} (catches : exn -> bool) (n : nat) (delay : Z) (f : M A)
    (m : machine) : bool :=
  match n with
  | O => true
  | S n' =>
      match f m with
      | (Raise e, _) => catches e && attempts_fail catches n' delay f (after_failure delay f m)
      | _ => false
      end
  end.

(** ** Sample machines *)

(** Three hits over two pages, the metadata field [_id] configured. *)
Definition m_stream : machine :=
  streaming (sample_opts ["title"; "n"] ["_id"] [] 10) 3
    (sample_world (sample_cluster true 0 (sample_page 3 []) (sample_next 3)) None).
Definition res_stream : page := sample_page 3 [sample_hit "a" 1; sample_hit "b" 2].


(** The metadata fields [_id] and [_meta] configured. *)
Definition m_meta_id : machine :=
  streaming (sample_opts ["title"; "n"] ["_id"; "_meta"] [] 10) 1
    (sample_world (sample_cluster true 0 (sample_page 1 []) (sample_next 1)) None).

Definition res_one : page := sample_page 1 [sample_hit "a" 1].

(** A first page of three hits when two results are expected. *)
Definition m_over : machine :=
  streaming (sample_opts ["title"; "n"] [] [] 2) 3
    (sample_world (sample_cluster true 0 (sample_page 3 []) (fun _ => sample_page 3 [])) None).
Definition res_over : page :=
  sample_page 3 [sample_hit "a" 1; sample_hit "b" 2; sample_hit "c" 3].


(** Staged lines [{"a": 1, "b": "x"}] and [{"a": 2, "b": "y"}]. *)
Definition d_1x : dict := [("a", JInt 1); ("b", JStr "x")].
Definition d_2y : dict := [("a", JInt 2); ("b", JStr "y")].
Definition m_csv : machine :=
  materializing (sample_opts ["a"; "b"] [] [] 10) 2
    (sample_world (sample_cluster true 0 (sample_page 2 []) (sample_next 2))
       (Some [Json (JObj d_1x); Json (JObj d_2y)])).

(** A second staged line with a key the first one lacks. *)
Definition m_extra_key : machine :=
  materializing (sample_opts ["a"; "b"] [] [] 10) 2
    (sample_world (sample_cluster true 0 (sample_page 2 []) (sample_next 2))
       (Some [Json (JObj [("a", JInt 1)]); Json (JObj [("a", JInt 2); ("b", JInt 3)])])).

(** A second staged line that does not parse. *)
Definition m_bad_line : machine :=
  materializing (sample_opts ["a"; "b"] [] [] 10) 2
    (sample_world (sample_cluster true 0 (sample_page 2 []) (sample_next 2))
       (Some [Json (JObj [("a", JInt 1)]); Malformed "{"])).

(** A query without matches, run from the start. *)
Definition m_no_match : machine :=
  start (sample_opts ["title"; "n"] [] [] 10)
    (sample_world (sample_cluster true 0 (sample_page 0 []) (sample_next 0)) None).

(** The machine [write_to_csv] starts from in that run. *)
Definition m_no_match_csv : machine :=
  ((create_connection ;; check_indexes ;; search_query 1) m_no_match).2.

(** A cluster on which the indices do not exist. *)
Definition m_no_index : machine :=
  start (sample_opts ["title"; "n"] [] [] 10)
    (sample_world (sample_cluster false 0 (sample_page 0 []) (sample_next 0)) None).

(** Searches that fail three times before they succeed; and four times. *)
Definition m_three_failures : machine :=
  start (sample_opts ["title"; "n"] [] [] 10)
    (sample_world (sample_cluster true 3 res_one (fun _ => sample_page 1 [])) None).
Definition m_always_failing : machine :=
  start (sample_opts ["title"; "n"] [] [] 10)
    (sample_world (sample_cluster true 4 res_one (fun _ => sample_page 1 [])) None).

(** An output field the index lacks; a sort key rooted at ["_all"]. *)
Definition m_missing_field : machine :=
  start (sample_opts ["title"; "author"] [] [[("n.raw", "asc")]] 10)
    (sample_world (sample_cluster true 0 (sample_page 0 []) (sample_next 0)) None).
Definition m_sort_all : machine :=
  start (sample_opts ["title"] [] [[("_all", "asc")]] 10)
    (sample_world (sample_cluster true 0 (sample_page 0 []) (sample_next 0)) None).
Definition sample_schema : string -> list string := fun _ => ["title"; "n"].

(** ** Vocabulary of the further properties *)

(** [preserves P c]: the method [c] keeps the property [P] of the machine,
    whatever its outcome. *)
Definition preserves {A} (P : machine -> Prop) (c : M A) : Prop :=
  forall m, P m -> P (c m).2.

(** The outcome of an attempt is one the decorator lets through: a value,
    or an exception it does not catch. *)
Definition lets_through {A} (catches : exn -> bool) (r : result A) : Prop :=
  forall e, r = Raise e -> catches e = false.

(** The index list [check_indexes] leaves in the options. *)
Definition narrowed (indexes : list string) : list string :=
  if bool_decide ("_all" ∈ indexes) then ["_all"] else indexes.

(** The machine with the index list of its options replaced. *)
Definition with_index_prefixes (l : list string) (m : machine) : machine :=
  {| self := with_opts (set_index_prefixes l (opts (self m))) (self m);
     env := env m |}.

(** The machine once an event has been recorded. *)
Definition recorded (e : event) (m : machine) : machine :=
  {| self := self m; env := with_event e (env m) |}.

(** The machine once the mapping of each index of the list has been asked
    for, in order. *)
Definition asked (indices : list string) (m : machine) : machine :=
  foldl (fun m index => recorded (EvCall (ReqGetMapping index)) m) m indices.

(** The first requested field that is a property of none of the indices. *)
Definition first_unknown (schema : string -> list string) (indices : list string)
    (requested : list string) : option string :=
  List.find (fun f => bool_decide (f ∉ concat (map schema indices))) requested.

(** The mapping lookups for [index] answer, but without an entry under
    that name. *)
Definition lacks_entry (cl : cluster) (index : string) : Prop :=
  forall n : nat,
    exists response,
      cl_get_mapping cl n index = Reply response /\
      mapping_get index response = None.

(** The machine with [self] or the world updated. *)
Definition on_self (f : EsXport -> EsXport) (m : machine) : machine :=
  {| self := f (self m); env := env m |}.
Definition on_env (f : world -> world) (m : machine) : machine :=
  {| self := self m; env := f (env m) |}.

(** The updates of the machine that [search_query] is made of: an event is
    recorded, [search_args] or [num_results] is assigned, [rows_written]
    goes up by one, a scroll id not yet in [scroll_ids] is appended to it,
    the staging file is opened for appending, a line is appended to it. *)
Inductive search_step : machine -> machine -> Prop :=
| step_event (e : event) (m : machine) :
    search_step m (recorded e m)
| step_search_args (a : search_args_t) (m : machine) :
    search_step m (on_self (with_search_args a) m)
| step_num_results (n : Z) (m : machine) :
    search_step m (on_self (with_num_results n) m)
| step_row (m : machine) :
    search_step m (on_self (fun s => with_rows_written (rows_written s + 1) s) m)
| step_scroll_id (sid : string) (m : machine) :
    sid ∉ scroll_ids (self m) ->
    search_step m (on_self (fun s => with_scroll_ids (scroll_ids s ++ [sid]) s) m)
| step_open (m : machine) :
    search_step m (on_env open_append m)
| step_line (l : line) (m : machine) :
    search_step m (on_env (append_line l) m).

(** The staging file [after] holds what the staging file [before] held,
    and possibly more lines behind. *)
Definition extends_file (before after : option (list line)) : Prop :=
  match after with
  | None => before = None
  | Some lines => exists more, lines = default [] before ++ more
  end.

(** The keys of a source once ["_meta"] has been popped. *)
Definition source_keys (data : dict) : list string :=
  filter (fun k => k ≠ "_meta") (dict_keys data).

(** The header [write_to_csv] reads off the staging file: the keys of its
    first line, when there is one and it is a JSON object. *)
Definition header_of (file : option (list line)) : option (list string) :=
  match file with
  | Some (Json (JObj d) :: _) => Some (dict_keys d)
  | _ => None
  end.

(** The requests to the cluster among the events. *)
Definition is_request (e : event) : bool :=
  match e with EvCall _ => true | _ => false end.

(** The CSV cell of a hit with the source [data] under the column [k]. *)
Definition cell_of (meta : list string) (h : hit) (data : dict) (k : string) : json :=
  if decide (k ∈ meta) then dict_get_default k h
  else if decide (k = "_meta") then JStr EmptyString
  else default (JStr EmptyString) (dict_get k data).

(** The staging file and the output file are two files. *)
Definition paths_differ (m : machine) : Prop :=
  tmp_file (self m) ≠ output_file (the_opts m).

(** ** Further sample machines *)

(** A cluster whose mapping replies are keyed by the concrete index
    [logs-2024], whatever name was asked for. *)
Definition keyed_cluster : cluster :=
  {| cl_health := fun _ => Reply tt;
     cl_indices_exists := fun _ _ => Reply true;
     cl_get_mapping := fun _ _ => Reply [("logs-2024", Some ["title"; "n"])];
     cl_search := fun _ _ => Reply (sample_page 0 []);
     cl_scroll := fun _ _ _ => Reply (sample_page 0 []);
     cl_clear_scroll := fun _ _ => Reply tt |}.

(** An index pattern as the only index prefix; the wildcard among them. *)
Definition m_pattern : machine :=
  start (set_index_prefixes ["logs-*"] (sample_opts ["title"] [] [] 10))
    (sample_world keyed_cluster None).
Definition m_wildcard : machine :=
  start (set_index_prefixes ["logs"; "_all"] (sample_opts ["title"] [] [] 10))
    (sample_world keyed_cluster None).

(** A hit without a source. *)
Definition bare_hit : hit := [("_index", JStr "logs"); ("_id", JStr "x")].

(** The metadata field [_source] configured. *)
Definition m_circular : machine :=
  streaming (sample_opts ["title"; "n"] ["_source"] [] 10) 1
    (sample_world (sample_cluster true 0 (sample_page 1 []) (sample_next 1)) None).

(** No row counted, and a staging file left over from an earlier run. *)
Definition m_stale_csv : machine :=
  materializing (sample_opts ["a"; "b"] [] [] 10) 0
    (sample_world (sample_cluster true 0 (sample_page 0 []) (sample_next 0))
       (Some [Json (JObj d_1x)])).

(** Two rows counted, and the staging file gone. *)
Definition m_lost : machine :=
  materializing (sample_opts ["a"; "b"] [] [] 10) 2
    (sample_world (sample_cluster true 0 (sample_page 2 []) (sample_next 2)) None).

(** A third staged line that does not parse, and a line behind it. *)
Definition m_refused : machine :=
  materializing (sample_opts ["a"; "b"] [] [] 10) 4
    (sample_world (sample_cluster true 0 (sample_page 4 []) (sample_next 4))
       (Some [Json (JObj d_1x); Json (JObj d_2y); Malformed "{";
              Json (JObj [("a", JInt 3)])])).

(** * Properties *)

(** ** Dictionaries *)

Local Ltac dict_cases :=
  cbn [dict_get dict_set dict_pop];
  repeat (case_decide; subst; cbn [dict_get dict_set dict_pop]);
  congruence.

Lemma dict_get_set_eq (k : string) (v : json) (d : dict) :
  dict_get k (dict_set k v d) = Some v.
Proof. induction d as [|[k' v'] d IH]; dict_cases. Qed.

Lemma dict_get_set_ne (k k' : string) (v : json) (d : dict) :
  k ≠ k' -> dict_get k (dict_set k' v d) = dict_get k d.
Proof. intros Hne. induction d as [|[k2 v2] d IH]; dict_cases. Qed.

Lemma dict_get_pop_eq (k : string) (d : dict) :
  dict_get k (dict_pop k d) = None.
Proof. induction d as [|[k' v'] d IH]; dict_cases. Qed.

Lemma dict_get_pop_ne (k k' : string) (d : dict) :
  k ≠ k' -> dict_get k (dict_pop k' d) = dict_get k d.
Proof. intros Hne. induction d as [|[k2 v2] d IH]; dict_cases. Qed.

Lemma dict_get_None_keys (k : string) (d : dict) :
  dict_get k d = None <-> k ∉ dict_keys d.
Proof.
  induction d as [|[k' v'] d IH]; simpl.
  - split; [intros _; apply not_elem_of_nil | done].
  - rewrite not_elem_of_cons. case_decide as Hk.
    + split; [done | by intros [? _]].
    + rewrite IH. tauto.
Qed.

(** After [add_meta_fields] a configured field holds the hit's value for it
    (or null); every other key is as before. *)
Lemma add_meta_fields_get (meta : list string) (h : hit) (data : dict) (f : string) :
  dict_get f (add_meta_fields meta h data) =
  if decide (f ∈ meta) then Some (dict_get_default f h) else dict_get f data.
Proof.
  unfold add_meta_fields. revert data.
  induction meta as [|g meta IH]; intros data; cbn [foldl].
  - rewrite decide_False; [done | apply not_elem_of_nil].
  - rewrite IH. destruct (decide (f ∈ meta)) as [Hin|Hnin].
    + rewrite decide_True; [done | by right].
    + destruct (decide (f = g)) as [->|Hne].
      * rewrite decide_True; [apply dict_get_set_eq | by left].
      * rewrite decide_False; [by apply dict_get_set_ne|].
        rewrite elem_of_cons. tauto.
Qed.

(** ** Running a method *)

Lemma bind_Ok {A B} (c : M A) (k : A -> M B) (m m' : machine) (a : A) :
  c m = (Ok a, m') -> bind c k m = k a m'.
Proof. intros H. unfold bind. by rewrite H. Qed.

Lemma bind_Raise {A B} (c : M A) (k : A -> M B) (m m' : machine) (e : exn) :
  c m = (Raise e, m') -> bind c k m = (Raise e, m').
Proof. intros H. unfold bind. by rewrite H. Qed.

(** ** Symbolic execution of the primitives *)

Lemma bind_bind {A B C} (c : M A) (k1 : A -> M B) (k2 : B -> M C) (m : machine) :
  bind (bind c k1) k2 m = bind c (fun a => bind (k1 a) k2) m.
Proof. unfold bind. by destruct (c m) as [[a|e|] m']. Qed.

Lemma bind_ret {A B} (a : A) (k : A -> M B) (m : machine) : bind (ret a) k m = k a m.
Proof. done. Qed.

Lemma bind_raise {A B} (e : exn) (k : A -> M B) (m : machine) :
  bind (raise e) k m = (Raise e, m).
Proof. done. Qed.

Lemma bind_get_self {B} (k : EsXport -> M B) (m : machine) :
  bind get_self k m = k (self m) m.
Proof. done. Qed.

Lemma bind_get_env {B} (k : world -> M B) (m : machine) :
  bind get_env k m = k (env m) m.
Proof. done. Qed.

Lemma bind_modify_self {B} (f : EsXport -> EsXport) (k : unit -> M B) (m : machine) :
  bind (modify_self f) k m = k tt {| self := f (self m); env := env m |}.
Proof. done. Qed.

Lemma bind_modify_env {B} (f : world -> world) (k : unit -> M B) (m : machine) :
  bind (modify_env f) k m = k tt {| self := self m; env := f (env m) |}.
Proof. done. Qed.

Ltac mstep :=
  repeat first
    [ rewrite bind_bind | rewrite bind_ret | rewrite bind_raise
    | rewrite bind_get_self | rewrite bind_get_env
    | rewrite bind_modify_self | rewrite bind_modify_env ];
  cbn [self env].

(** ** Frame conditions *)

Section Keeps.
Context {X : Type} (proj : machine -> X).

Lemma keeps_ret {A} (a : A) : keeps proj (ret a).
Proof. by intros m. Qed.

Lemma keeps_raise {A} (e : exn) : keeps proj (@raise A e).
Proof. by intros m. Qed.

Lemma keeps_out_of_fuel {A} : keeps proj (@out_of_fuel A).
Proof. by intros m. Qed.

Lemma keeps_get_self : keeps proj get_self.
Proof. by intros m. Qed.

Lemma keeps_get_env : keeps proj get_env.
Proof. by intros m. Qed.

Lemma keeps_bind {A B} (c : M A) (k : A -> M B) :
  keeps proj c -> (forall a, keeps proj (k a)) -> keeps proj (bind c k).
Proof.
  intros Hc Hk m. unfold bind. specialize (Hc m).
  destruct (c m) as [[a|e|] m']; simpl in *; [|done..].
  by rewrite Hk.
Qed.

Lemma keeps_try_except {A} (c : M A) (catches : exn -> bool) (h : exn -> M A) :
  keeps proj c -> (forall e, keeps proj (h e)) -> keeps proj (try_except c catches h).
Proof.
  intros Hc Hh m. unfold try_except. specialize (Hc m).
  destruct (c m) as [[a|e|] m']; simpl in *; [done| |done].
  destruct (catches e); [by rewrite Hh | done].
Qed.

Lemma keeps_for_each {A S} (l : list A) (body : A -> S -> M S) (acc : S) :
  (forall x s, keeps proj (body x s)) -> keeps proj (for_each l body acc).
Proof.
  intros Hb. revert acc. induction l as [|x l IH]; intros acc; simpl.
  - apply keeps_ret.
  - apply keeps_bind; [apply Hb | apply IH].
Qed.

Lemma keeps_if {A} (b : bool) (c1 c2 : M A) :
  keeps proj c1 -> keeps proj c2 -> keeps proj (if b then c1 else c2).
Proof. by destruct b. Qed.

Lemma keeps_if_decide {A} (P : Prop) `{Decision P} (c1 c2 : M A) :
  keeps proj c1 -> keeps proj c2 -> keeps proj (if decide P then c1 else c2).
Proof. by destruct (decide P). Qed.

(** The bookkeeping of the decorator only logs and sleeps. *)
Lemma keeps_f_retry {A} (catches : exn -> bool) (n : nat) (delay : Z) (f : M A) :
  (forall lvl msg, keeps proj (emit (EvLog lvl msg))) ->
  (forall d, keeps proj (emit (EvSleep d))) ->
  keeps proj f -> keeps proj (f_retry catches n delay f).
Proof.
  intros Hlog Hsleep Hf. induction n as [|n IH]; simpl.
  - apply keeps_try_except; [done|]. intros e.
    apply keeps_bind; [apply Hlog | intros; apply keeps_raise].
  - apply keeps_try_except; [done|]. intros e.
    apply keeps_bind; [apply Hlog | intros _].
    apply keeps_bind; [apply Hlog | intros _].
    apply keeps_bind; [apply Hsleep | intros _; apply IH].
Qed.

Lemma keeps_call {A} (kind : event -> bool) (r : request)
    (answer : cluster -> nat -> outcome A) :
  keeps proj (emit (EvCall r)) -> keeps proj (call kind r answer).
Proof.
  intros He. unfold call. apply keeps_bind; [apply keeps_get_env | intros w].
  apply keeps_bind; [done | intros _].
  destruct (answer _ _); [apply keeps_ret | apply keeps_raise].
Qed.
End Keeps.

Lemma calls_snoc (kind : event -> bool) (t : list event) (e : event) :
  calls kind (t ++ [e]) = (calls kind t + if kind e then 1 else 0)%nat.
Proof.
  unfold calls. rewrite List.filter_app, List.length_app. simpl.
  by destruct (kind e).
Qed.

Lemma the_calls_emit (kind : event -> bool) (e : event) (m : machine) :
  the_calls kind (emit e m).2 = (the_calls kind m + if kind e then 1 else 0)%nat.
Proof. unfold the_calls. simpl. apply calls_snoc. Qed.

Lemma keeps_calls_emit (kind : event -> bool) (e : event) :
  kind e = false -> keeps (the_calls kind) (emit e).
Proof. intros H m. rewrite the_calls_emit, H. lia. Qed.

Lemma the_events_emit (kind : event -> bool) (e : event) (m : machine) :
  the_events kind (emit e m).2 = the_events kind m ++ (if kind e then [e] else []).
Proof. unfold the_events, the_trace. simpl. by rewrite List.filter_app. Qed.

Lemma keeps_events_emit (kind : event -> bool) (e : event) :
  kind e = false -> keeps (the_events kind) (emit e).
Proof. intros H m. by rewrite the_events_emit, H, app_nil_r. Qed.

(** A method built from the combinators keeps what its primitives keep. *)
Ltac keeps_leaf :=
  first [ by intros ?
        | apply keeps_calls_emit; reflexivity
        | apply keeps_events_emit; reflexivity ].

Ltac keeps_step :=
  first [ apply keeps_call
        | apply keeps_f_retry; [intros ? ?|intros ?|]
        | apply keeps_for_each; intros ? ?
        | apply keeps_try_except; [|intros ?]
        | apply keeps_ret | apply keeps_raise | apply keeps_out_of_fuel
        | apply keeps_get_self | apply keeps_get_env
        | apply keeps_bind; [|intros ?]
        | apply keeps_if
        | apply keeps_if_decide
        | progress unfold log_info, log_error, sleep, sys_exit
        | keeps_leaf
        | case_match ].

Ltac solve_keeps := repeat keeps_step.

(** ** The staging writer *)

Lemma source_of_Ok (h : hit) (data : dict) (m : machine) :
  hit_source h = Some data -> source_of h m = (Ok data, m).
Proof.
  unfold hit_source, source_of. intros H.
  destruct (dict_get "_source" h) as [[]|]; by simplify_eq.
Qed.

Lemma stage_lines_app (l1 l2 : list line) (m : machine) :
  stage_lines l2 (stage_lines l1 m) = stage_lines (l1 ++ l2) m.
Proof. unfold stage_lines, with_staging. simpl. by rewrite app_assoc. Qed.

Lemma flush_hit_Ok (h : hit) (m : machine) :
  "_source" ∉ meta_fields (the_opts m) -> is_Some (hit_source h) ->
  flush_hit h m = (Ok tt, stage_lines [staged_line (meta_fields (the_opts m)) h] m).
Proof.
  intros Hmeta [data Hdata]. unfold flush_hit.
  unfold bind at 1. simpl. rewrite (bind_Ok _ _ _ _ _ (source_of_Ok _ _ _ Hdata)).
  unfold refers_to_itself. rewrite bool_decide_eq_false_2 by done.
  unfold staged_line. by rewrite Hdata.
Qed.

Lemma flush_hits_Ok (hit_list : list hit) (m : machine) :
  "_source" ∉ meta_fields (the_opts m) -> Forall (fun h => is_Some (hit_source h)) hit_list ->
  for_each hit_list (fun h (_ : unit) => flush_hit h) tt m =
  (Ok tt, if hit_list is [] then m
          else stage_lines (map (staged_line (meta_fields (the_opts m))) hit_list) m).
Proof.
  intros Hmeta Hwf. revert m Hmeta.
  induction Hwf as [|h hl Hh Hwf IH]; intros m Hmeta; [done|].
  cbn [for_each]. rewrite (bind_Ok _ _ _ _ _ (flush_hit_Ok _ _ Hmeta Hh)).
  rewrite IH by done. destruct hl as [|h' hl]; [done|].
  by rewrite stage_lines_app.
Qed.

Lemma flush_to_file_Ok (hit_list : list hit) (m : machine) :
  "_source" ∉ meta_fields (the_opts m) -> Forall (fun h => is_Some (hit_source h)) hit_list ->
  flush_to_file hit_list m =
  (Ok tt, stage_lines (map (staged_line (meta_fields (the_opts m))) hit_list) m).
Proof.
  intros Hmeta Hwf. unfold flush_to_file, bind at 1. cbn [modify_env].
  rewrite flush_hits_Ok by done.
  destruct hit_list as [|h hl].
  - unfold stage_lines, open_append. simpl. by rewrite app_nil_r.
  - done.
Qed.

(** ** Consuming a page *)

Lemma same_rest_refl (m : machine) : same_rest m m.
Proof. done. Qed.

Lemma same_rest_trans (m1 m2 m3 : machine) :
  same_rest m1 m2 -> same_rest m2 m3 -> same_rest m1 m3.
Proof. intros [? ?] [? ?]. split; congruence. Qed.

Lemma same_rest_opts (m m' : machine) : same_rest m m' -> the_opts m' = the_opts m.
Proof. intros [H _]. by apply (f_equal opts) in H. Qed.

Lemma same_rest_cluster (m m' : machine) : same_rest m m' -> the_cluster m' = the_cluster m.
Proof. intros [_ H]. by apply (f_equal es) in H. Qed.

Lemma same_rest_trace (m m' : machine) : same_rest m m' -> the_trace m' = the_trace m.
Proof. intros [_ H]. by apply (f_equal trace) in H. Qed.

Lemma same_rest_output (m m' : machine) : same_rest m m' -> the_output m' = the_output m.
Proof. intros [_ H]. by apply (f_equal output) in H. Qed.

Lemma consume_hit_Ok (h : hit) (hit_list : list hit) (m : machine) :
  "_source" ∉ meta_fields (the_opts m) ->
  Forall well_formed hit_list -> well_formed h ->
  exists hit_list' m',
    consume_hit h hit_list m = (Ok hit_list', m') /\
    Forall well_formed hit_list' /\
    rows_written (self m') = rows_written (self m) + 1 /\
    pending m' hit_list' = pending m hit_list ++ [staged_line (meta_fields (the_opts m)) h] /\
    same_rest m m'.
Proof.
  intros Hmeta Hwf Hh. unfold consume_hit, bind at 1. cbn [modify_self].
  set (m1 := {| self := _; env := env m |}).
  assert (Hopts : the_opts m1 = the_opts m) by done.
  destruct (decide _) as [Hlen|Hlen].
  - assert (Hall : Forall well_formed (hit_list ++ [h]))
      by (apply Forall_app; split; [done | by constructor]).
    rewrite (bind_Ok _ _ m1 _ tt
               (flush_to_file_Ok (hit_list ++ [h]) m1 ltac:(by rewrite Hopts) Hall)).
    eexists _, _. split; [reflexivity|]. split; [constructor|].
    split; [reflexivity|]. split; [|split; reflexivity].
    unfold pending, the_staging. simpl.
    by rewrite Hopts, map_app, app_nil_r, app_assoc.
  - eexists _, _. split; [reflexivity|].
    split; [apply Forall_app; split; [done | by constructor]|].
    split; [reflexivity|]. split; [|split; reflexivity].
    unfold pending, the_staging. simpl. by rewrite map_app, app_assoc.
Qed.

Lemma consume_page_Ok (hs : list hit) (hit_list : list hit) (m : machine) :
  "_source" ∉ meta_fields (the_opts m) ->
  Forall well_formed hit_list -> Forall well_formed hs ->
  exists hit_list' m',
    for_each hs consume_hit hit_list m = (Ok hit_list', m') /\
    Forall well_formed hit_list' /\
    rows_written (self m') = rows_written (self m) + Z.of_nat (List.length hs) /\
    pending m' hit_list' = pending m hit_list ++ map (staged_line (meta_fields (the_opts m))) hs /\
    same_rest m m'.
Proof.
  intros Hmeta Hwf Hhs. revert hit_list m Hmeta Hwf.
  induction Hhs as [|h hs Hh Hhs IH]; intros hit_list m Hmeta Hwf.
  - exists hit_list, m. simpl. rewrite app_nil_r. split_and!; try done; lia.
  - destruct (consume_hit_Ok h hit_list m) as (hl1 & m1 & E1 & Hwf1 & Hr1 & Hp1 & Hs1); [done..|].
    pose proof (same_rest_opts _ _ Hs1) as Ho1.
    destruct (IH hl1 m1) as (hl2 & m2 & E2 & Hwf2 & Hr2 & Hp2 & Hs2);
      [by rewrite Ho1 | done |].
    exists hl2, m2. cbn [for_each]. rewrite (bind_Ok _ _ _ _ _ E1).
    split; [done|]. split; [done|]. split; [rewrite Hr2, Hr1; simpl; lia|].
    split; [|by eapply same_rest_trans].
    rewrite Hp2, Hp1, Ho1. cbn [map]. by rewrite <- app_assoc.
Qed.

(** ** The decorator, attempt by attempt *)

Lemma f_retry_Ok {A} (catches : exn -> bool) (n : nat) (delay : Z) (f : M A)
    (m m' : machine) (a : A) :
  f m = (Ok a, m') -> f_retry catches n delay f m = (Ok a, m').
Proof. intros H. destruct n; simpl; unfold try_except; by rewrite H. Qed.

Lemma f_retry_uncaught {A} (catches : exn -> bool) (n : nat) (delay : Z) (f : M A)
    (m m' : machine) (e : exn) :
  f m = (Raise e, m') -> catches e = false ->
  f_retry catches n delay f m = (Raise e, m').
Proof. intros H He. destruct n; simpl; unfold try_except; by rewrite H, He. Qed.

Lemma f_retry_caught {A} (catches : exn -> bool) (n : nat) (delay : Z) (f : M A)
    (m m' : machine) (e : exn) :
  f m = (Raise e, m') -> catches e = true ->
  f_retry catches (S n) delay f m = f_retry catches n delay f (pause delay e m').
Proof. intros H He. simpl. unfold try_except. by rewrite H, He. Qed.

Lemma f_retry_fatal {A} (catches : exn -> bool) (delay : Z) (f : M A)
    (m m' : machine) (e : exn) :
  f m = (Raise e, m') -> catches e = true ->
  f_retry catches 0 delay f m = (Raise (SystemExit 1), fatal e m').
Proof. intros H He. simpl. unfold try_except. by rewrite H, He. Qed.

Lemma f_retry_after_failures {A} (catches : exn -> bool) (delay : Z) (f : M A)
    (k n : nat) (m m' : machine) :
  fails_in_a_row catches delay f k m m' ->
  f_retry catches (k + n) delay f m = f_retry catches n delay f m'.
Proof.
  induction 1 as [|k m m1 m' e Hf He _ IH]; [done|].
  cbn [Nat.add]. by rewrite (f_retry_caught _ _ _ _ _ _ _ Hf He).
Qed.

(** ** [next_scroll] when the cluster answers *)

Lemma next_scroll_Ok (sid : string) (p : page) (m : machine) :
  cl_scroll (the_cluster m) (the_calls is_scroll m) (scroll_time (self m)) sid = Reply p ->
  next_scroll sid m =
  (Ok p, {| self := self m;
            env := with_event (EvCall (ReqScroll (scroll_time (self m)) sid)) (env m) |}).
Proof.
  intros H. unfold next_scroll, retry. apply f_retry_Ok.
  unfold bind, get_self, scroll, call, bind, get_env, emit, modify_env. simpl.
  unfold the_cluster, the_calls in H. by rewrite H.
Qed.

(** ** The scroll loop against the sequence of pages *)

Lemma track_scroll_id (sid : string) (m : machine) :
  exists m0,
    (if bool_decide (sid ∉ scroll_ids (self m))
     then modify_self (fun s => with_scroll_ids (scroll_ids s ++ [sid]) s)
     else ret tt) m = (Ok tt, m0) /\
    env m0 = env m /\ opts (self m0) = opts (self m) /\
    rows_written (self m0) = rows_written (self m) /\
    scroll_time (self m0) = scroll_time (self m).
Proof. destruct (bool_decide _); eexists; (split; [reflexivity | done]). Qed.

Lemma scroll_loop_spec (fuel : nat) :
  forall (total : Z) (res : page) (ps : nat -> page) (hit_list : list hit) (m : machine),
    "_source" ∉ meta_fields (the_opts m) ->
    Forall well_formed hit_list ->
    pages_well_formed res ps ->
    delivers m ps ->
    exists r m',
      scroll_loop fuel total res hit_list m = (r, m') /\
      rows_written (self m') =
        rows_written (self m)
        + Z.of_nat (List.length (seen fuel total (rows_written (self m)) res ps)) /\
      the_opts m' = the_opts m /\ the_cluster m' = the_cluster m /\
      the_output m' = the_output m /\
      if stops_within fuel total (rows_written (self m)) res ps
      then exists hit_list',
             r = Ok hit_list' /\ Forall well_formed hit_list' /\
             pending m' hit_list' =
               pending m hit_list
               ++ map (staged_line (meta_fields (the_opts m)))
                      (seen fuel total (rows_written (self m)) res ps)
      else r = OutOfFuel.
Proof.
  induction fuel as [|fuel IH]; intros total res ps hit_list m Hmeta Hwf [Hres Hps] Hdel.
  - exists OutOfFuel, m. simpl. split_and!; try done. lia.
  - cbn [scroll_loop seen stops_within]. unfold bind at 1. cbn [get_self].
    destruct (decide (rows_written (self m) = total)) as [Heq|Hne].
    { exists (Ok hit_list), m. simpl. split_and!; try done; [lia|].
      exists hit_list. by rewrite app_nil_r. }
    destruct (track_scroll_id (scroll_id res) m) as (m0 & E0 & Henv & Hopts & Hrows & Htime).
    rewrite (bind_Ok _ _ _ _ _ E0).
    assert (Hp0 : forall hl, pending m0 hl = pending m hl).
    { intros hl. unfold pending, the_staging, the_opts. by rewrite Henv, Hopts. }
    destruct (hits res) as [|h hs] eqn:Ehits.
    { eexists _, _. split; [reflexivity|]. simpl.
      unfold the_opts, the_cluster, the_output. simpl. rewrite Henv, Hopts, Hrows.
      split_and!; try done; [lia|].
      exists hit_list. split_and!; try done.
      rewrite app_nil_r. unfold pending, the_staging, the_opts. simpl.
      by rewrite Hopts. }
    destruct (consume_page_Ok (h :: hs) hit_list m0)
      as (hl1 & m1 & E1 & Hwf1 & Hr1 & Hpd1 & Hs1);
      [by unfold the_opts; rewrite Hopts | done | done |].
    rewrite (bind_Ok _ _ _ _ _ E1).
    assert (Hcalls1 : the_calls is_scroll m1 = the_calls is_scroll m).
    { unfold the_calls. fold (the_trace m1). rewrite (same_rest_trace _ _ Hs1).
      unfold the_trace. by rewrite Henv. }
    assert (Hcl1 : the_cluster m1 = the_cluster m).
    { rewrite (same_rest_cluster _ _ Hs1). unfold the_cluster. by rewrite Henv. }
    assert (Hopts1 : the_opts m1 = the_opts m).
    { rewrite (same_rest_opts _ _ Hs1). done. }
    pose proof (Hdel 0%nat (scroll_time (self m1)) (scroll_id res)) as Hreply.
    rewrite Nat.add_0_r, <- Hcalls1, <- Hcl1 in Hreply.
    rewrite (bind_Ok _ _ _ _ _ (next_scroll_Ok _ _ _ Hreply)).
    set (m2 := {| self := self m1; env := _ |}).
    destruct (IH total (ps 0%nat) (shift ps) hl1 m2)
      as (r & m' & E & Hr & Ho & Hc & Hout & Hstop).
    { by rewrite <- Hopts1 in Hmeta. }
    { done. }
    { split; [apply Hps | intros i; apply Hps]. }
    { intros i a b. unfold shift.
      change (the_cluster m2) with (the_cluster m1). rewrite Hcl1.
      replace (the_calls is_scroll m2 + i)%nat with (the_calls is_scroll m + S i)%nat.
      - apply Hdel.
      - change m2 with
          (emit (EvCall (ReqScroll (scroll_time (self m1)) (scroll_id res))) m1).2.
        rewrite the_calls_emit, Hcalls1. simpl. lia. }
    assert (Hrows2 : rows_written (self m2) =
                     rows_written (self m) + Z.of_nat (List.length (h :: hs))).
    { unfold m2. simpl. rewrite Hr1, Hrows. done. }
    rewrite Hrows2 in Hr, Hstop.
    exists r, m'. split; [done|]. split.
    { rewrite Hr, List.length_app, Nat2Z.inj_add. lia. }
    split; [by rewrite Ho|]. split; [by rewrite Hc|].
    split.
    { rewrite Hout. unfold m2, the_output. simpl. fold (the_output m1).
      rewrite (same_rest_output _ _ Hs1). unfold the_output. by rewrite Henv. }
    destruct (stops_within fuel _ _ _ _); [|done].
    destruct Hstop as (hl' & -> & Hwf' & Hpd').
    exists hl'. split_and!; try done.
    rewrite Hpd'. replace (pending m2 hl1) with (pending m1 hl1) by done.
    rewrite Hpd1, Hp0. replace (the_opts m2) with (the_opts m1) by done.
    rewrite Hopts1. replace (the_opts m0) with (the_opts m) by done.
    by rewrite map_app, app_assoc.
Qed.

Lemma pages_fit_seen (fuel : nat) :
  forall (total rows : Z) (res : page) (ps : nat -> page),
    pages_fit fuel total rows res ps -> rows <= total ->
    rows + Z.of_nat (List.length (seen fuel total rows res ps)) <= total.
Proof.
  induction fuel as [|fuel IH]; intros total rows res ps Hfit Hle;
    cbn [seen pages_fit] in *; [simpl; lia|].
  destruct (decide (rows = total)) as [->|Hne]; [simpl; lia|].
  destruct Hfit as [?|[Hnil|[Hpage Hfit]]]; [done| |].
  - rewrite Hnil. simpl. lia.
  - destruct (hits res) as [|h hs] eqn:E; [simpl; lia|].
    rewrite List.length_app, Nat2Z.inj_add.
    specialize (IH _ _ _ _ Hfit Hpage). lia.
Qed.



(** C4 (as amended). Against any sequence of well-formed pages: after any
    number [fuel] of tests of the loop condition, [rows_written] has grown
    by exactly the number of hits of the pages consumed so far, every hit of
    a consumed page being counted; it stays within the expected result count
    [total], the reported total clamped to the configured maximum, as long
    as no consumed page holds more hits than are still needed; and the loop
    has exited by then exactly when one of these tests found [rows_written]
    equal to [total] or the page at hand empty, and is still running
    otherwise. *)
Theorem C4_rows_written_and_loop_exit
    (fuel : nat) (res : page) (ps : nat -> page)
    (hit_list : list hit) (m : machine) :
  "_source" ∉ meta_fields (the_opts m) ->
  Forall well_formed hit_list ->
  pages_well_formed res ps ->
  delivers m ps ->
  let total := total_size_of (self m) in
  let rows := rows_written (self m) in
  let out := scroll_loop fuel total res hit_list m in
  rows_written (self out.2) = rows + Z.of_nat (List.length (seen fuel total rows res ps)) /\
  (rows <= total -> pages_fit fuel total rows res ps ->
   rows_written (self out.2) <= total) /\
  ((exists hit_list', out.1 = Ok hit_list') <-> stops_within fuel total rows res ps = true) /\
  (out.1 = OutOfFuel <-> stops_within fuel total rows res ps = false).
Proof.
  intros Hsrc Hwf Hpages Hdel total rows out.
  destruct (scroll_loop_spec fuel total res ps hit_list m)
    as (r & m' & E & Hr & _ & _ & _ & Hs); [done..|].
  subst out. rewrite E. cbn [fst snd]. fold rows in Hr, Hs.
  split; [done|]. split.
  { intros Hle Hfit. rewrite Hr. by apply pages_fit_seen. }
  destruct (stops_within fuel total rows res ps).
  - destruct Hs as (hl & -> & _). split; split; try done. by exists hl.
  - subst r. split; split; try done. by intros [? ?].
Qed.

(** ** The final flush *)








(** ** CSV materialization *)

Lemma fits_header_own (d : dict) : fits_header (dict_keys d) (Json (JObj d)) = true.
Proof.
  simpl. apply forallb_forall. intros k Hk.
  apply bool_decide_eq_true_2. by apply list_elem_of_In.
Qed.

Lemma write_row_Ok (headers : list string) (l : line) (f : csv_file) (m : machine) :
  the_output m = Some f -> fits_header headers l = true ->
  (row <- json_loads l ;; writerow headers row) m =
  (Ok tt, with_rows f [cells_of headers l] m).
Proof.
  intros Hout Hfit. destruct l as [[| | | | | |d]|]; try done.
  unfold bind. cbn [json_loads ret writerow]. simpl in Hfit. rewrite Hfit.
  unfold modify_env, append_row, with_rows. unfold the_output in Hout.
  by rewrite Hout.
Qed.

Lemma write_rows_Ok (headers : list string) (lines : list line) :
  forall (f : csv_file) (m : machine),
    the_output m = Some f ->
    Forall (fun l => fits_header headers l = true) lines ->
    for_each lines (fun l (_ : unit) => row <- json_loads l ;; writerow headers row) tt m =
    (Ok tt, with_rows f (map (cells_of headers) lines) m).
Proof.
  induction lines as [|l lines IH]; intros f m Hout Hfit.
  - simpl. unfold ret, with_rows. rewrite app_nil_r. unfold the_output in Hout.
    destruct m as [s [c st out tr]]. simpl in *. subst out. by destruct f.
  - inversion Hfit as [|? ? Hl Hfit']; subst. cbn [for_each].
    rewrite (bind_Ok _ _ _ _ _ (write_row_Ok headers l f m Hout Hl)).
    erewrite IH; [|reflexivity|done].
    unfold with_rows. simpl. by rewrite <- app_assoc.
Qed.

(** C3 (as amended). With [rows_written] positive and a staging file whose
    first line is the object [d0] and whose every line is an object with no
    key outside those of [d0], materialization returns; the output file has the
    configured delimiter, the keys of [d0] in their order as header row,
    then one data row per staged line, each holding that line's values in
    header order (the empty string for a key the line lacks); and the
    staging file is gone. *)
Theorem C3_csv_header_and_rows
    (m : machine) (d0 : dict) (rest : list line) :
  rows_written (self m) > 0 ->
  the_staging m = Some (Json (JObj d0) :: rest) ->
  Forall (fun l => fits_header (dict_keys d0) l = true) rest ->
  let headers := dict_keys d0 in
  let data_rows := map (cells_of headers) (Json (JObj d0) :: rest) in
  exists m',
    write_to_csv m = (Ok tt, m') /\
    the_output m' =
      Some {| csv_delimiter := delimiter (the_opts m);
              csv_rows := map JStr headers :: data_rows |} /\
    List.length data_rows = List.length (Json (JObj d0) :: rest) /\
    csv_headers (self m') = headers /\
    the_staging m' = None.
Proof.
  intros Hrows Hst Hfit headers data_rows. unfold the_staging in Hst.
  unfold write_to_csv. mstep. rewrite decide_True by done.
  unfold read_first_line. mstep. rewrite Hst.
  unfold json_loads, keys_of, writeheader. mstep.
  cbn [open_output append_row with_output output staging]. rewrite Hst.
  erewrite (bind_Ok _ _ _ _ tt); cycle 1.
  { apply write_rows_Ok with (headers := headers); [reflexivity|].
    constructor; [apply fits_header_own | done]. }
  unfold unlink_tmp. mstep.
  cbn [with_rows env with_output open_output staging]. rewrite Hst.
  eexists. split; [reflexivity|]. subst data_rows.
  split; [reflexivity|]. split; [by rewrite length_map|]. split; reflexivity.
Qed.

(** The first branch of [write_to_csv], and the second, leave the staging
    file alone. *)
Lemma write_rows_keeps_staging (headers : list string) (lines : list line) :
  keeps the_staging
    (for_each lines (fun l (_ : unit) => row <- json_loads l ;; writerow headers row) tt).
Proof.
  apply keeps_for_each. intros l _. unfold json_loads, writerow.
  apply keeps_bind; [by destruct l|]. intros row.
  destruct row; try apply keeps_raise. case_match; [|apply keeps_raise].
  intros m. unfold modify_env, append_row, the_staging. simpl. by case_match.
Qed.

(** C8 (as amended). The staging file is deleted by the last statement of
    [write_to_csv]: it is absent after a materialization that returns, and
    it is as it was after one that raises, whether while reading the header,
    parsing a line or writing a row. *)
Theorem C8_staging_deleted_only_on_return (m : machine) :
  the_staging (write_to_csv m).2 =
  match (write_to_csv m).1 with
  | Ok _ => None
  | _ => the_staging m
  end.
Proof.
  unfold write_to_csv. rewrite !bind_get_self.
  set (branch := if decide (rows_written (self m) > 0) then _ else _).
  assert (Hkeep : keeps the_staging branch).
  { subst branch. apply keeps_if_decide; [|by intros ?].
    unfold read_first_line, keys_of, json_loads, writeheader.
    apply keeps_bind.
    { apply keeps_bind; [apply keeps_get_env | intros w].
      apply keeps_bind; [apply keeps_get_self | intros s].
      repeat case_match; solve_keeps. }
    intros first_line. apply keeps_bind; [by destruct first_line|]. intros headers.
    apply keeps_bind; [by intros ?|]. intros _.
    apply keeps_bind; [by intros ?|]. intros _.
    apply keeps_bind.
    { intros m0. unfold modify_env, append_row, the_staging. simpl. by case_match. }
    intros _. apply keeps_bind; [apply keeps_get_env | intros w].
    case_match; [apply write_rows_keeps_staging | apply keeps_raise]. }
  unfold bind. specialize (Hkeep m).
  destruct (branch m) as [[[]|e|] m1]; cbn [fst snd] in *; [|done..].
  unfold unlink_tmp, bind, get_env, get_self. unfold the_staging in *.
  destruct (staging (env m1)) eqn:E; simpl; [done | by rewrite <- Hkeep].
Qed.

(** C1 (the code departs from it). With no row written and no staging file,
    which is the state a query without matches leaves, [write_to_csv] logs
    that there are no documents for the requested fields, leaves the output
    file alone, and then fails to delete the staging file that was never
    created: the run ends in [FileNotFoundError], a non-zero exit status. *)
Theorem C1_zero_results_unlink_raises (m : machine) :
  rows_written (self m) = 0 ->
  the_staging m = None ->
  let msg := "There is no docs with selected field(s): "
             +:+ join "," (fields (the_opts m)) +:+ "." in
  let m' := {| self := self m; env := with_event (EvLog INFO msg) (env m) |} in
  write_to_csv m = (Raise (FileNotFoundError (tmp_file (self m))), m') /\
  exit_status (write_to_csv m).1 = Some 1 /\
  the_output m' = the_output m /\ the_staging m' = None.
Proof.
  intros Hrows Hst msg m'. unfold the_staging in Hst.
  assert (E : write_to_csv m = (Raise (FileNotFoundError (tmp_file (self m))), m')).
  { unfold write_to_csv. mstep. rewrite decide_False by lia.
    unfold log_info, emit, unlink_tmp. mstep. cbn [with_event staging].
    by rewrite Hst. }
  rewrite E. by split_and!.
Qed.

(** ** The index check *)

Lemma check_indexes_missing (m : machine) :
  "_all" ∉ index_prefixes (the_opts m) ->
  cl_indices_exists (the_cluster m) (the_calls is_indices_exists m)
    (index_prefixes (the_opts m)) = Reply false ->
  check_indexes_body m =
  (Raise (SystemExit 1),
   {| self := self m;
      env := with_event
               (EvLog ERROR ("Any of index(es) " +:+ join ", " (index_prefixes (the_opts m))
                             +:+ " does not exist in " +:+ url (the_opts m) +:+ "."))
               (with_event (EvCall (ReqIndicesExists (index_prefixes (the_opts m))))
                  (env m)) |}).
Proof.
  intros Hall Hreply. unfold check_indexes_body. mstep.
  rewrite bool_decide_eq_false_2 by done.
  unfold indices_exists, call, emit. mstep.
  unfold the_cluster, the_calls, the_opts in Hreply. rewrite Hreply. mstep.
  unfold log_error, emit, sys_exit. mstep. done.
Qed.

Lemma create_connection_keeps_output : keeps the_output create_connection.
Proof. unfold create_connection, retry, cluster_health. solve_keeps. Qed.

Lemma create_connection_keeps_search : keeps (the_calls is_search) create_connection.
Proof. unfold create_connection, retry, cluster_health. solve_keeps. Qed.

Lemma check_indexes_body_keeps_search : keeps (the_calls is_search) check_indexes_body.
Proof. unfold check_indexes_body, indices_exists. solve_keeps. Qed.

Lemma check_indexes_body_keeps_output : keeps the_output check_indexes_body.
Proof. unfold check_indexes_body, indices_exists. solve_keeps. Qed.

Lemma create_connection_keeps_staging : keeps the_staging create_connection.
Proof. unfold create_connection, retry, cluster_health. solve_keeps. Qed.

Lemma check_indexes_body_keeps_staging : keeps the_staging check_indexes_body.
Proof. unfold check_indexes_body, indices_exists. solve_keeps. Qed.

Lemma pause_calls (kind : event -> bool) (delay : Z) (e : exn) (m : machine) :
  (forall lvl msg, kind (EvLog lvl msg) = false) ->
  (forall d, kind (EvSleep d) = false) ->
  the_calls kind (pause delay e m) = the_calls kind m.
Proof.
  intros Hlog Hsleep. unfold the_calls, pause. simpl.
  rewrite !calls_snoc, !Hlog, Hsleep. lia.
Qed.

Lemma fails_in_a_row_keeps {A X} (proj : machine -> X) (catches : exn -> bool)
    (delay : Z) (f : M A) (n : nat) (m m' : machine) :
  keeps proj f -> (forall e m0, proj (pause delay e m0) = proj m0) ->
  fails_in_a_row catches delay f n m m' -> proj m' = proj m.
Proof.
  intros Hf Hp. induction 1 as [|n m m1 m' e H1 _ _ IH]; [done|].
  rewrite IH, Hp. specialize (Hf m). by rewrite H1 in Hf.
Qed.

Lemma clean_scroll_ids_keeps_output : keeps the_output clean_scroll_ids.
Proof. unfold clean_scroll_ids, clear_scroll. solve_keeps. Qed.

Lemma clean_scroll_ids_keeps_search : keeps (the_calls is_search) clean_scroll_ids.
Proof. unfold clean_scroll_ids, clear_scroll. solve_keeps. Qed.

Lemma clean_scroll_ids_keeps_staging : keeps the_staging clean_scroll_ids.
Proof. unfold clean_scroll_ids, clear_scroll. solve_keeps. Qed.

(** C7. When the index list has no ["_all"] and the existence check answers
    that the indices do not exist, be it on the first attempt or after up to
    three attempts lost to connectivity errors, [check_indexes] logs the
    error and raises [SystemExit(1)] at once: no further existence check, no
    further delay. The run then ends with status 1, has issued no search
    and has touched neither the output file nor the staging file. *)
Theorem C7_missing_index_is_fatal
    (fuel k : nat) (m0 m1 m2 : machine) :
  create_connection m0 = (Ok tt, m1) ->
  (k <= 3)%nat ->
  fails_in_a_row is_ConnectionError RETRY_DELAY check_indexes_body k m1 m2 ->
  "_all" ∉ index_prefixes (the_opts m2) ->
  cl_indices_exists (the_cluster m2) (the_calls is_indices_exists m2)
    (index_prefixes (the_opts m2)) = Reply false ->
  let msg := "Any of index(es) " +:+ join ", " (index_prefixes (the_opts m2))
             +:+ " does not exist in " +:+ url (the_opts m2) +:+ "." in
  let m3 := {| self := self m2;
               env := with_event (EvLog ERROR msg)
                        (with_event (EvCall (ReqIndicesExists (index_prefixes (the_opts m2))))
                           (env m2)) |} in
  check_indexes m1 = (Raise (SystemExit 1), m3) /\
  (export fuel m0).1 = Raise (SystemExit 1) /\
  exit_status (export fuel m0).1 = Some 1 /\
  the_calls is_search (export fuel m0).2 = the_calls is_search m0 /\
  the_output (export fuel m0).2 = the_output m0 /\
  the_staging (export fuel m0).2 = the_staging m0.
Proof.
  intros Hconn Hk Hfails Hall Hreply msg m3.
  assert (E : check_indexes m1 = (Raise (SystemExit 1), m3)).
  { unfold check_indexes, retry.
    replace (Z.to_nat TIMES_TO_TRY) with (k + (3 - k))%nat by (unfold TIMES_TO_TRY; lia).
    rewrite (f_retry_after_failures _ _ _ _ _ _ _ Hfails).
    apply f_retry_uncaught; [by apply check_indexes_missing | done]. }
  assert (Hrun : export fuel m0 = (Raise (SystemExit 1), (clean_scroll_ids m3).2)).
  { unfold export. rewrite (bind_Ok _ _ _ _ _ Hconn), (bind_Raise _ _ _ _ _ E).
    by destruct (clean_scroll_ids m3). }
  rewrite Hrun. cbn [fst snd]. split_and!; try done.
  - rewrite clean_scroll_ids_keeps_search.
    transitivity (the_calls is_search m2).
    { unfold the_calls, m3. cbn [env trace with_event]. rewrite !calls_snoc.
      simpl. lia. }
    rewrite (fails_in_a_row_keeps (the_calls is_search) _ _ _ _ _ _
               check_indexes_body_keeps_search
               (fun e m => pause_calls is_search _ e m (fun _ _ => eq_refl) (fun _ => eq_refl))
               Hfails).
    pose proof (create_connection_keeps_search m0) as H. by rewrite Hconn in H.
  - rewrite clean_scroll_ids_keeps_output.
    transitivity (the_output m2); [done|].
    rewrite (fails_in_a_row_keeps the_output _ _ _ _ _ _
               check_indexes_body_keeps_output (fun _ _ => eq_refl) Hfails).
    pose proof (create_connection_keeps_output m0) as H. by rewrite Hconn in H.
  - rewrite clean_scroll_ids_keeps_staging.
    transitivity (the_staging m2); [done|].
    rewrite (fails_in_a_row_keeps the_staging _ _ _ _ _ _
               check_indexes_body_keeps_staging (fun _ _ => eq_refl) Hfails).
    pose proof (create_connection_keeps_staging m0) as H. by rewrite Hconn in H.
Qed.

(** ** What a failed attempt of [search_query] leaves behind *)

Lemma never_ce_ret {A} (a : A) : never_ce (ret a).
Proof. by intros m e m' [=]. Qed.

Lemma never_ce_raise {A} (e : exn) : is_ConnectionError e = false -> never_ce (@raise A e).
Proof. intros He m e' m' [= <- _]. done. Qed.

Lemma never_ce_get_self : never_ce get_self.
Proof. by intros m e m' [=]. Qed.

Lemma never_ce_modify_self (f : EsXport -> EsXport) : never_ce (modify_self f).
Proof. by intros m e m' [=]. Qed.

Lemma never_ce_modify_env (f : world -> world) : never_ce (modify_env f).
Proof. by intros m e m' [=]. Qed.

Lemma never_ce_out_of_fuel {A} : never_ce (@out_of_fuel A).
Proof. by intros m e m' [=]. Qed.

Lemma never_ce_bind {A B} (c : M A) (k : A -> M B) :
  never_ce c -> (forall a, never_ce (k a)) -> never_ce (bind c k).
Proof.
  intros Hc Hk m e m'. unfold bind.
  destruct (c m) as [[a|e0|] m1] eqn:E; [apply Hk | | done].
  intros [= <- _]. by eapply Hc.
Qed.

Lemma never_ce_for_each {A S} (l : list A) (body : A -> S -> M S) (acc : S) :
  (forall x s, never_ce (body x s)) -> never_ce (for_each l body acc).
Proof.
  intros Hb. revert acc. induction l as [|x l IH]; intros acc; simpl.
  - apply never_ce_ret.
  - apply never_ce_bind; [apply Hb | apply IH].
Qed.

(** The decorator turns the connectivity error into [SystemExit]. *)
Lemma never_ce_f_retry {A} (n : nat) (delay : Z) (f : M A) :
  never_ce (f_retry is_ConnectionError n delay f).
Proof.
  induction n as [|n IH]; intros m e m'; simpl; unfold try_except;
    destruct (f m) as [[a|e0|] m1]; try done.
  - destruct (is_ConnectionError e0) eqn:E0; [|by intros [= <- _]].
    unfold log_error, emit, sys_exit. rewrite bind_modify_env. by intros [= <- _].
  - destruct (is_ConnectionError e0) eqn:E0; [|by intros [= <- _]].
    unfold log_error, log_info, sleep, emit. rewrite !bind_modify_env. apply IH.
Qed.

Lemma never_ce_flush_to_file (hit_list : list hit) : never_ce (flush_to_file hit_list).
Proof.
  unfold flush_to_file. apply never_ce_bind; [apply never_ce_modify_env | intros _].
  apply never_ce_for_each. intros h _. unfold flush_hit.
  apply never_ce_bind; [apply never_ce_get_self | intros s].
  apply never_ce_bind.
  - unfold source_of. repeat case_match; (apply never_ce_ret || by apply never_ce_raise).
  - intros data. case_match; [by apply never_ce_raise | apply never_ce_modify_env].
Qed.

Lemma never_ce_scroll_loop (fuel : nat) :
  forall total res hit_list, never_ce (scroll_loop fuel total res hit_list).
Proof.
  induction fuel as [|fuel IH]; intros total res hit_list; simpl;
    [apply never_ce_out_of_fuel|].
  apply never_ce_bind; [apply never_ce_get_self | intros s].
  case_match; [apply never_ce_ret|].
  apply never_ce_bind.
  { case_match; [apply never_ce_modify_self | apply never_ce_ret]. }
  intros _. case_match.
  { apply never_ce_bind; [apply never_ce_modify_env | intros; apply never_ce_ret]. }
  apply never_ce_bind.
  { apply never_ce_for_each. intros x acc. unfold consume_hit.
    apply never_ce_bind; [apply never_ce_modify_self | intros _].
    case_match; [|apply never_ce_ret].
    apply never_ce_bind; [apply never_ce_flush_to_file | intros; apply never_ce_ret]. }
  intros acc. apply never_ce_bind; [apply never_ce_f_retry | intros res'; apply IH].
Qed.

Lemma never_ce_write_to_temp_file (fuel : nat) (res : page) :
  never_ce (write_to_temp_file fuel res).
Proof.
  unfold write_to_temp_file.
  apply never_ce_bind; [apply never_ce_get_self | intros s].
  apply never_ce_bind; [apply never_ce_scroll_loop | intros hl].
  apply never_ce_flush_to_file.
Qed.

Lemma quiet_never_ce {X A} (proj : machine -> X) (c : M A) : never_ce c -> quiet proj c.
Proof. intros H m e m' E He. by rewrite (H _ _ _ E) in He. Qed.

Lemma quiet_bind {X A B} (proj : machine -> X) (c : M A) (k : A -> M B) :
  keeps proj c -> (forall a, quiet proj (k a)) -> quiet proj (bind c k).
Proof.
  intros Hc Hk m e m'. unfold bind. specialize (Hc m).
  destruct (c m) as [[a|e0|] m1]; cbn [snd] in Hc; [| |done].
  - intros E He. rewrite <- Hc. by eapply Hk.
  - by intros [= <- <-] _.
Qed.

Lemma validate_fields_keeps_sleeps : keeps (the_events is_sleep) _validate_fields.
Proof.
  unfold _validate_fields, all_expected_fields, fetch_fields, sort_param,
    get_mapping, properties_of.
  solve_keeps.
Qed.

Lemma search_query_body_quiet (fuel : nat) :
  quiet (the_events is_sleep) (search_query_body fuel).
Proof.
  unfold search_query_body.
  apply quiet_bind; [apply validate_fields_keeps_sleeps | intros _].
  apply quiet_bind; [unfold prepare_search_query; solve_keeps | intros _].
  apply quiet_bind; [solve_keeps | intros s].
  apply quiet_bind; [unfold search; solve_keeps | intros res].
  apply quiet_bind; [solve_keeps | intros _].
  apply quiet_bind; [solve_keeps | intros _].
  apply quiet_never_ce. case_match; [apply never_ce_write_to_temp_file | apply never_ce_ret].
Qed.

Lemma fails_in_a_row_sleeps {A} (delay : Z) (f : M A) (n : nat) (m m' : machine) :
  quiet (the_events is_sleep) f ->
  fails_in_a_row is_ConnectionError delay f n m m' ->
  the_events is_sleep m' = the_events is_sleep m ++ replicate n (EvSleep delay).
Proof.
  intros Hq. induction 1 as [|n m m1 m' e H1 He _ IH]; [by rewrite app_nil_r|].
  rewrite IH. unfold the_events, the_trace, pause. cbn [env trace with_event].
  rewrite !List.filter_app. cbn [List.filter is_sleep]. rewrite !app_nil_r.
  fold (the_trace m1). fold (the_events is_sleep m1).
  rewrite (Hq _ _ _ H1 He). by rewrite <- app_assoc.
Qed.

Lemma search_query_keeps_output (fuel : nat) : keeps the_output (search_query fuel).
Proof.
  unfold search_query, retry. apply keeps_f_retry; [by intros ? ? ? | by intros ? ? |].
  unfold search_query_body, _validate_fields, all_expected_fields, fetch_fields,
    sort_param, get_mapping, properties_of, prepare_search_query, search.
  do 6 (apply keeps_bind; [solve_keeps | intros ?]).
  apply keeps_if_decide; [|apply keeps_ret].
  unfold write_to_temp_file.
  apply keeps_bind; [apply keeps_get_self | intros s].
  apply keeps_bind; [|intros hl; unfold flush_to_file, flush_hit, source_of; solve_keeps].
  generalize (@nil hit) as hl. generalize a2 as res. generalize (total_size_of s) as total.
  induction fuel as [|fuel IH]; intros total res hl; simpl; [apply keeps_out_of_fuel|].
  apply keeps_bind; [apply keeps_get_self | intros s'].
  apply keeps_if_decide; [apply keeps_ret|].
  apply keeps_bind; [solve_keeps | intros _].
  destruct (hits res) as [|h hs]; [solve_keeps|].
  apply keeps_bind.
  { unfold consume_hit, flush_to_file, flush_hit, source_of. solve_keeps. }
  intros hl'. apply keeps_bind; [unfold next_scroll, retry, scroll; solve_keeps|].
  intros res'. apply IH.
Qed.

(** C5 (as amended). The decorator makes [tries] attempts that it retries
    and then a last one. With try count 3, once a decorated operation has
    failed with the connectivity error on four attempts in a row, three of
    them followed by the log entries and the 60-second sleep and then the
    last, the decorator logs the fatal error and raises [SystemExit(1)].
    When the operation is [search_query], the run ends with status 1, has
    slept exactly three times 60 seconds since the search began, and has
    not touched the output file. *)
Theorem C5_retry_exhaustion_is_fatal
    (fuel : nat) (m0 m1 m2 m3 : machine) (e : exn) :
  (create_connection ;; check_indexes) m0 = (Ok tt, m1) ->
  fails_in_a_row is_ConnectionError RETRY_DELAY (search_query_body fuel) 3 m1 m2 ->
  search_query_body fuel m2 = (Raise e, m3) ->
  is_ConnectionError e = true ->
  (forall (A : Type) (f : M A) (n1 n2 n3 : machine) (e' : exn),
     fails_in_a_row is_ConnectionError RETRY_DELAY f 3 n1 n2 ->
     f n2 = (Raise e', n3) -> is_ConnectionError e' = true ->
     retry is_ConnectionError TIMES_TO_TRY RETRY_DELAY f n1 =
       (Raise (SystemExit 1), fatal e' n3)) /\
  search_query fuel m1 = (Raise (SystemExit 1), fatal e m3) /\
  (export fuel m0).1 = Raise (SystemExit 1) /\
  exit_status (export fuel m0).1 = Some 1 /\
  the_events is_sleep (export fuel m0).2 =
    the_events is_sleep m1 ++ [EvSleep 60; EvSleep 60; EvSleep 60] /\
  the_output (export fuel m0).2 = the_output m0.
Proof.
  intros Hstart Hfails Hlast He.
  assert (Hretry : forall (A : Type) (f : M A) (n1 n2 n3 : machine) (e' : exn),
             fails_in_a_row is_ConnectionError RETRY_DELAY f 3 n1 n2 ->
             f n2 = (Raise e', n3) -> is_ConnectionError e' = true ->
             retry is_ConnectionError TIMES_TO_TRY RETRY_DELAY f n1 =
               (Raise (SystemExit 1), fatal e' n3)).
  { intros A f n1 n2 n3 e' Hf Hl He'. unfold retry.
    change (Z.to_nat TIMES_TO_TRY) with (3 + 0)%nat.
    rewrite (f_retry_after_failures _ _ _ _ _ _ _ Hf).
    by apply f_retry_fatal. }
  assert (E : search_query fuel m1 = (Raise (SystemExit 1), fatal e m3))
    by (by apply (Hretry _ _ _ m2)).
  split; [exact Hretry|].
  assert (Hrun : export fuel m0 =
                 (Raise (SystemExit 1), (clean_scroll_ids (fatal e m3)).2)).
  { unfold export.
    rewrite <- (bind_bind create_connection (fun _ => check_indexes)
                  (fun _ => search_query fuel ;; write_to_csv) m0).
    rewrite (bind_Ok _ _ _ _ _ Hstart).
    rewrite (bind_Raise _ _ _ _ _ E). by destruct (clean_scroll_ids _). }
  rewrite Hrun. cbn [fst snd]. split_and!; try done.
  - assert (Hclean : keeps (the_events is_sleep) clean_scroll_ids)
      by (unfold clean_scroll_ids, clear_scroll; solve_keeps).
    rewrite Hclean.
    transitivity (the_events is_sleep m3).
    { unfold the_events, the_trace, fatal. cbn [env trace with_event].
      rewrite List.filter_app. simpl. by rewrite app_nil_r. }
    rewrite (search_query_body_quiet fuel _ _ _ Hlast He).
    by rewrite (fails_in_a_row_sleeps _ _ _ _ _ (search_query_body_quiet fuel) Hfails).
  - rewrite clean_scroll_ids_keeps_output.
    pose proof (search_query_keeps_output fuel m1) as H1. rewrite E in H1.
    cbn [snd] in H1. rewrite H1.
    assert (Hkeep : keeps the_output (create_connection ;; check_indexes)).
    { apply keeps_bind; [apply create_connection_keeps_output | intros _].
      unfold check_indexes, retry.
      apply keeps_f_retry; [by intros ? ? ? | by intros ? ? |].
      apply check_indexes_body_keeps_output. }
    specialize (Hkeep m0). by rewrite Hstart in Hkeep.
Qed.

(** ** Field validation *)

Lemma sort_params_Ok (l : list (list (string * string))) :
  forall (acc : list string) (m : machine),
    Forall (fun q => q ≠ []) l ->
    for_each l (fun sort_query acc => p <- sort_param sort_query ;; ret (acc ++ [p])) acc m =
    (Ok (acc ++ sort_roots l), m).
Proof.
  induction l as [|q l IH]; intros acc m Hl; simpl.
  - by rewrite app_nil_r.
  - inversion Hl as [|? ? Hq Hl']; subst.
    destruct q as [|[k v] q]; [done|].
    unfold sort_param at 1. mstep. rewrite IH by done.
    by rewrite <- app_assoc.
Qed.

Lemma list_remove_absent (x : string) (l : list string) : x ∉ l -> list_remove x l = l.
Proof.
  induction l as [|y l IH]; [done|]. intros [Hne Hl]%not_elem_of_cons. simpl.
  rewrite decide_False by done. by rewrite IH.
Qed.

Lemma all_expected_fields_Ok (m : machine) :
  Forall (fun q => q ≠ []) (sort (the_opts m)) ->
  "_all" ∉ fields (the_opts m) ++ sort_roots (sort (the_opts m)) ->
  all_expected_fields m = (Ok (fields (the_opts m) ++ sort_roots (sort (the_opts m))), m).
Proof.
  intros Hsort Hall. unfold all_expected_fields. mstep.
  rewrite (bind_Ok _ _ _ _ _ (sort_params_Ok _ _ m Hsort)). unfold the_opts in Hall.
  by rewrite bool_decide_eq_false_2.
Qed.

Lemma fields_dict_lookup (schema : string -> list string) (indices : list string) :
  forall (acc : gmap string (list string)) (index : string),
    fields_dict schema indices acc !! index =
    if decide (index ∈ indices) then Some (schema index) else acc !! index.
Proof.
  unfold fields_dict.
  induction indices as [|i indices IH]; intros acc index; cbn [foldl].
  - rewrite decide_False; [done | apply not_elem_of_nil].
  - rewrite IH. destruct (decide (index ∈ indices)) as [Hin|Hnin].
    + rewrite decide_True; [done | by right].
    + destruct (decide (index = i)) as [->|Hne].
      * rewrite decide_True; [apply lookup_insert_eq | by left].
      * rewrite decide_False; [by apply lookup_insert_ne|].
        rewrite elem_of_cons. tauto.
Qed.

Lemma fetch_fields_Ok (schema : string -> list string) (indices all : list string) :
  forall (acc : gmap string (list string)) (m : machine),
    has_schema (the_cluster m) all schema ->
    indices ⊆ all ->
    exists m',
      for_each indices
        (fun index (all_fields_dict : gmap string (list string)) =>
           response <- get_mapping index ;;
           props <- properties_of index response ;;
           ret (<[index := props]> all_fields_dict))
        acc m = (Ok (fields_dict schema indices acc), m').
Proof.
  induction indices as [|i indices IH]; intros acc m Hschema Hsub.
  - by exists m.
  - cbn [for_each]. unfold get_mapping at 1, call. mstep.
    destruct (Hschema (calls is_get_mapping (trace (env m))) i) as (resp & Hreply & Hget).
    { apply Hsub. by left. }
    unfold the_cluster in Hreply. rewrite Hreply. unfold emit. mstep.
    unfold properties_of at 1. rewrite Hget. mstep.
    apply IH; [done|]. intros x Hx. apply Hsub. by right.
Qed.

Lemma all_es_fields_spec (d : gmap string (list string)) (x : string) :
  x ∈ all_es_fields d <-> exists index props, d !! index = Some props /\ x ∈ props.
Proof.
  unfold all_es_fields. rewrite elem_of_list_to_set, list_elem_of_In, in_concat.
  split.
  - intros (props & Hprops & Hx). apply in_map_iff in Hprops as ([index props'] & <- & Hin).
    apply list_elem_of_In, elem_of_map_to_list in Hin.
    exists index, props'. split; [done | by apply list_elem_of_In].
  - intros (index & props & Hd & Hx). exists props. split; [|by apply list_elem_of_In].
    apply in_map_iff. exists (index, props). split; [done|].
    by apply list_elem_of_In, elem_of_map_to_list.
Qed.

Lemma check_fields_result (es_fields : gset string) (expected : list string) (m : machine) :
  (for_each expected
     (fun element (_ : unit) =>
        if bool_decide (element ∉ es_fields) then
          log_error ("Fields " +:+ element +:+ " doesn't exist in any index.") ;;
          sys_exit 1
        else ret tt)
     tt m).1 =
  if decide (Forall (fun f => f ∈ es_fields) expected) then Ok tt
  else Raise (SystemExit 1).
Proof.
  revert m. induction expected as [|f expected IH]; intros m.
  - by rewrite decide_True.
  - cbn [for_each]. destruct (decide (f ∈ es_fields)) as [Hin|Hnin].
    + rewrite bool_decide_eq_false_2 by (by intros ?). mstep. rewrite IH.
      destruct (decide (Forall _ expected)) as [Hall|Hnall].
      * rewrite decide_True; [done | by constructor].
      * rewrite decide_False; [done|]. by inversion 1.
    + rewrite bool_decide_eq_true_2 by done. unfold log_error, emit, sys_exit. mstep.
      rewrite decide_False; [done|]. by inversion 1.
Qed.

(** C6 (as amended). When ["_all"] is neither an output field nor the root
    of a sort key, and the mapping lookups answer with the properties of
    each target index, field validation raises [SystemExit(1)], which
    [search_query] passes on, exactly when some output field or sort-key
    root is in the properties of none of the target indices, and returns
    normally exactly when every one of them is in the properties of some
    target index. *)
Theorem C6_missing_field_is_fatal
    (fuel : nat) (schema : string -> list string) (m : machine) :
  Forall (fun q => q ≠ []) (sort (the_opts m)) ->
  "_all" ∉ fields (the_opts m) ->
  "_all" ∉ sort_roots (sort (the_opts m)) ->
  has_schema (the_cluster m) (index_prefixes (the_opts m)) schema ->
  let requested := fields (the_opts m) ++ sort_roots (sort (the_opts m)) in
  let known f := exists index, index ∈ index_prefixes (the_opts m) /\ f ∈ schema index in
  ((_validate_fields m).1 = Raise (SystemExit 1) <->
   exists f, f ∈ requested /\ ~ known f) /\
  ((_validate_fields m).1 = Ok tt <-> forall f, f ∈ requested -> known f) /\
  ((exists f, f ∈ requested /\ ~ known f) ->
   (search_query fuel m).1 = Raise (SystemExit 1) /\
   exit_status (search_query fuel m).1 = Some 1).
Proof.
  intros Hsort Hf Hs Hschema requested known.
  set (d := fields_dict schema (index_prefixes (the_opts m)) ∅).
  assert (Hknown : forall f, f ∈ all_es_fields d <-> known f).
  { intros f. rewrite all_es_fields_spec. subst d known. split.
    - intros (index & props & Hd & Hx). rewrite fields_dict_lookup in Hd.
      case_decide; [|by rewrite lookup_empty in Hd]. simplify_eq. by exists index.
    - intros (index & Hin & Hx). exists index, (schema index). split; [|done].
      by rewrite fields_dict_lookup, decide_True. }
  assert (E : (_validate_fields m).1 =
              if decide (Forall (fun f => f ∈ all_es_fields d) requested)
              then Ok tt else Raise (SystemExit 1)).
  { unfold _validate_fields. mstep.
    rewrite (bind_Ok _ _ _ _ _ (all_expected_fields_Ok m Hsort
               ltac:(rewrite not_elem_of_app; by split))).
    destruct (fetch_fields_Ok schema (index_prefixes (the_opts m))
                (index_prefixes (the_opts m)) ∅ m Hschema ltac:(done)) as (m' & Hfetch).
    unfold fetch_fields. rewrite (bind_Ok _ _ _ _ _ Hfetch).
    apply check_fields_result. }
  assert (Hiff : Forall (fun f => f ∈ all_es_fields d) requested <->
                 forall f, f ∈ requested -> known f).
  { rewrite list.Forall_forall. split; intros H f Hin; apply Hknown, H, Hin. }
  assert (Hmissing : (exists f, f ∈ requested /\ ~ known f) <->
                     ~ Forall (fun f => f ∈ all_es_fields d) requested).
  { split.
    - intros (f & Hin & Hn) Hall. rewrite list.Forall_forall in Hall.
      by apply Hn, Hknown, Hall.
    - intros Hn. apply not_Forall_Exists in Hn; [|apply _].
      apply list.Exists_exists in Hn as (f & Hin & Hn). exists f. split; [done|].
      intros Hk. by apply Hn, Hknown. }
  split; [|split].
  - rewrite E, Hmissing. case_decide; split; done.
  - rewrite E, <- Hiff. case_decide; split; done.
  - intros Hex. apply Hmissing in Hex.
    rewrite decide_False in E by done.
    destruct (_validate_fields m) as [r m1] eqn:Ev. cbn [fst] in E. subst r.
    unfold search_query, retry.
    erewrite f_retry_uncaught; [done| |done].
    unfold search_query_body. by rewrite (bind_Raise _ _ _ _ _ Ev).
Qed.

(** C9. The staged record is built by stripping ["_meta"] from the source
    and then assigning every configured metadata field. So whenever a
    record is staged for a hit, the value it holds for a configured field is
    the hit-level value (null when the hit lacks it) whatever the source
    held under that name, and a configured field named ["_meta"] is back in
    the record although the source's own ["_meta"] was stripped. *)
Theorem C9_metadata_overwrites_source
    (h : hit) (data : dict) (f : string) (m : machine) :
  hit_source h = Some data ->
  f ∈ meta_fields (the_opts m) ->
  (flush_hit h m).1 = Ok tt ->
  let record := add_meta_fields (meta_fields (the_opts m)) h (dict_pop "_meta" data) in
  flush_hit h m = (Ok tt, stage_lines [Json (JObj record)] m) /\
  dict_get "_meta" (dict_pop "_meta" data) = None /\
  dict_get f record = Some (dict_get_default f h).
Proof.
  intros Hdata Hf Hok record.
  assert (Hsrc : "_source" ∉ meta_fields (the_opts m)).
  { intros Hin. revert Hok. unfold flush_hit. mstep.
    rewrite (bind_Ok _ _ _ _ _ (source_of_Ok _ _ _ Hdata)).
    unfold refers_to_itself. by rewrite bool_decide_eq_true_2. }
  split; [|split].
  - rewrite flush_hit_Ok by (done || by eexists).
    unfold staged_line. by rewrite Hdata.
  - apply dict_get_pop_eq.
  - subst record. by rewrite add_meta_fields_get, decide_True.
Qed.

Lemma attempts_fail_spec {A} (catches : exn -> bool) (n : nat) (delay : Z) (f : M A) :
  forall m, attempts_fail catches n delay f m = true ->
            fails_in_a_row catches delay f n m (after_failures n delay f m).
Proof.
  induction n as [|n IH]; intros m H; simpl in *; [constructor|].
  destruct (f m) as [[a|e|] m1] eqn:E; try done.
  apply andb_prop in H as [He H].
  eapply fails_more; [exact E | exact He |].
  replace (pause delay e m1) with (after_failure delay f m)
    by (unfold after_failure; by rewrite E).
  by apply IH.
Qed.

(** ** The theorems at sample inputs *)

Lemma sample_pages_well_formed (total : Z) (hs : list hit) :
  Forall well_formed hs -> pages_well_formed (sample_page total hs) (sample_next total).
Proof.
  intros Hhs. split; [done|]. intros [|i]; simpl; repeat constructor. by eexists.
Qed.

(** C1 at the machine a query without matches leaves. *)
Lemma C1_witness :
  rows_written (self m_no_match_csv) = 0 /\
  the_staging m_no_match_csv = None /\
  (write_to_csv m_no_match_csv).1 = Raise (FileNotFoundError "out.csv.tmp") /\
  exit_status (write_to_csv m_no_match_csv).1 = Some 1.
Proof.
  assert (H1 : rows_written (self m_no_match_csv) = 0) by (vm_compute; reflexivity).
  assert (H2 : the_staging m_no_match_csv = None) by (vm_compute; reflexivity).
  destruct (C1_zero_results_unlink_raises m_no_match_csv H1 H2) as (E & Hx & _).
  split; [exact H1|]. split; [exact H2|]. split; [|exact Hx].
  rewrite E. reflexivity.
Defined.



(** C3 at the staged lines [{"a": 1, "b": "x"}] and [{"a": 2, "b": "y"}]. *)
Lemma C3_witness :
  exists m',
    write_to_csv m_csv = (Ok tt, m') /\
    the_output m' =
      Some {| csv_delimiter := ",";
              csv_rows := [[JStr "a"; JStr "b"]; [JInt 1; JStr "x"]; [JInt 2; JStr "y"]] |} /\
    the_staging m' = None.
Proof.
  destruct (C3_csv_header_and_rows m_csv d_1x [Json (JObj d_2y)])
    as (m' & E & Hout & _ & _ & Hst).
  - reflexivity.
  - reflexivity.
  - repeat constructor.
  - exists m'. split; [exact E|]. split; [rewrite Hout; reflexivity | exact Hst].
Defined.

(** C3 as stated fails: a second line with a key the first one lacks makes
    [writerow] raise; one data row is written for two staged lines and the
    staging file stays. *)
Lemma C3_counterexample :
  rows_written (self m_extra_key) > 0 /\
  (write_to_csv m_extra_key).1 =
    Raise (ValueError "dict contains fields not in fieldnames") /\
  the_output (write_to_csv m_extra_key).2 =
    Some {| csv_delimiter := ","; csv_rows := [[JStr "a"]; [JInt 1]] |} /\
  the_staging (write_to_csv m_extra_key).2 =
    Some [Json (JObj [("a", JInt 1)]); Json (JObj [("a", JInt 2); ("b", JInt 3)])].
Proof. vm_compute. repeat split. Qed.

(** C4 at three expected results delivered as pages of two hits and one. *)
Lemma C4_witness :
  let out := scroll_loop 3 (total_size_of (self m_stream)) res_stream [] m_stream in
  rows_written (self out.2) = 3 /\
  rows_written (self out.2) <= total_size_of (self m_stream) /\
  exists hit_list', out.1 = Ok hit_list'.
Proof.
  destruct (C4_rows_written_and_loop_exit 3 res_stream (sample_next 3) [] m_stream)
    as (Hrows & Hle & Hexit & _).
  - compute_done.
  - constructor.
  - apply sample_pages_well_formed. repeat constructor; by eexists.
  - intros i a b. reflexivity.
  - split; [rewrite Hrows; vm_compute; reflexivity|]. split.
    + apply Hle; [vm_compute; discriminate|].
      right. right. split; [vm_compute; discriminate|].
      right. right. split; [vm_compute; discriminate|]. by left.
    + apply Hexit. vm_compute. reflexivity.
Defined.

(** C4 as stated fails: with two results expected and a first page of
    three hits, [rows_written] ends at three. *)
Lemma C4_counterexample :
  total_size_of (self m_over) = 2 /\
  (write_to_temp_file 3 res_over m_over).1 = Ok tt /\
  rows_written (self (write_to_temp_file 3 res_over m_over).2) = 3.
Proof. vm_compute. repeat split. Qed.

(** C5 at a search that fails four times in a row. *)
Lemma C5_witness :
  (export 1 m_always_failing).1 = Raise (SystemExit 1) /\
  exit_status (export 1 m_always_failing).1 = Some 1 /\
  the_events is_sleep (export 1 m_always_failing).2 =
    [EvSleep 60; EvSleep 60; EvSleep 60] /\
  the_output (export 1 m_always_failing).2 = None.
Proof.
  pose (m1 := ((create_connection ;; check_indexes) m_always_failing).2).
  pose (m2 := after_failures 3 RETRY_DELAY (search_query_body 1) m1).
  assert (H1 : (create_connection ;; check_indexes) m_always_failing = (Ok tt, m1))
    by (vm_compute; reflexivity).
  assert (H2 : fails_in_a_row is_ConnectionError RETRY_DELAY (search_query_body 1) 3 m1 m2).
  { apply (attempts_fail_spec is_ConnectionError 3 RETRY_DELAY (search_query_body 1) m1).
    vm_compute. reflexivity. }
  assert (H3 : search_query_body 1 m2 =
               (Raise (ConnectionError "Connection timed out"), (search_query_body 1 m2).2))
    by (vm_compute; reflexivity).
  pose proof (C5_retry_exhaustion_is_fatal 1 m_always_failing m1 m2
                (search_query_body 1 m2).2 (ConnectionError "Connection timed out")
                H1 H2 H3 eq_refl) as (_ & _ & Hr & Hx & Hsl & Hout).
  split; [exact Hr|]. split; [exact Hx|].
  split; [rewrite Hsl | rewrite Hout]; vm_compute; reflexivity.
Defined.

(** C5 as stated fails: after three failed attempts of the search the
    fourth one succeeds, and the run ends normally with its output file. *)
Lemma C5_counterexample :
  (forall n, (n < 3)%nat ->
     cl_search (the_cluster m_three_failures) n None = Fail "Connection timed out") /\
  (export 2 m_three_failures).1 = Ok tt /\
  exit_status (export 2 m_three_failures).1 = Some 0 /\
  the_calls is_search (export 2 m_three_failures).2 = 4%nat /\
  the_output (export 2 m_three_failures).2 =
    Some {| csv_delimiter := ",";
            csv_rows := [[JStr "title"; JStr "_id"; JStr "n"];
                         [JStr "t"; JStr "in-source"; JInt 1]] |}.
Proof.
  split.
  { intros n Hn. simpl. by rewrite (proj2 (Nat.ltb_lt n 3) Hn). }
  vm_compute. repeat split.
Qed.

(** C6 at the output field [author], which the index lacks. *)
Lemma C6_witness :
  (_validate_fields m_missing_field).1 = Raise (SystemExit 1) /\
  (search_query 1 m_missing_field).1 = Raise (SystemExit 1).
Proof.
  destruct (C6_missing_field_is_fatal 1 sample_schema m_missing_field)
    as (Hfatal & _ & Hsearch).
  - repeat constructor. discriminate.
  - compute_done.
  - compute_done.
  - intros n index Hin%list_elem_of_singleton. subst index.
    eexists. split; reflexivity.
  - assert (Hmissing : exists f,
              f ∈ fields (the_opts m_missing_field)
                  ++ sort_roots (sort (the_opts m_missing_field)) /\
              ~ exists index, index ∈ index_prefixes (the_opts m_missing_field) /\
                              f ∈ sample_schema index).
    { exists "author". split; [compute_done|]. intros (index & _ & Hin).
      revert Hin. compute_done. }
    split; [by apply Hfatal | by apply Hsearch].
Defined.

(** C6 as stated fails: the sort key ["_all"] has a root that no index
    has as a property, and validation passes. *)
Lemma C6_counterexample :
("_all" ∉ fields (the_opts m_sort_all)) /\
  sort_roots (sort (the_opts m_sort_all)) = ["_all"] /\
  cl_get_mapping (the_cluster m_sort_all) 0 "logs" = Reply [("logs", Some ["title"; "n"])] /\
  (_validate_fields m_sort_all).1 = Ok tt.
Proof. split; [compute_done|]. vm_compute. repeat split. Qed.

(** C7 at a cluster that reports the indices missing on the first attempt. *)
Lemma C7_witness :
  (export 1 m_no_index).1 = Raise (SystemExit 1) /\
  exit_status (export 1 m_no_index).1 = Some 1 /\
  the_calls is_search (export 1 m_no_index).2 = 0%nat /\
  the_calls is_indices_exists (export 1 m_no_index).2 = 1%nat /\
  the_events is_sleep (export 1 m_no_index).2 = [].
Proof.
  pose (m1 := (create_connection m_no_index).2).
  destruct (C7_missing_index_is_fatal 1 0 m_no_index m1 m1)
    as (_ & Hr & Hx & Hsearch & _ & _).
  - vm_compute. reflexivity.
  - lia.
  - constructor.
  - compute_done.
  - vm_compute. reflexivity.
  - split; [exact Hr|]. split; [exact Hx|]. split; [rewrite Hsearch|];
      vm_compute; repeat split.
Defined.

(** C8 as stated fails: a staged line that does not parse makes the loop
    raise, and the staging file is still there. *)
Lemma C8_counterexample :
  (write_to_csv m_bad_line).1 = Raise JSONDecodeError /\
  the_output (write_to_csv m_bad_line).2 =
    Some {| csv_delimiter := ","; csv_rows := [[JStr "a"]; [JInt 1]] |} /\
  the_staging (write_to_csv m_bad_line).2 =
    Some [Json (JObj [("a", JInt 1)]); Malformed "{"].
Proof. vm_compute. repeat split. Qed.

(** C9 at a hit whose source has an ["_id"] of its own. *)
Lemma C9_witness :
  let h := sample_hit "a" 1 in
  dict_get "_id" (default [] (hit_source h)) = Some (JStr "in-source") /\
  the_staging (flush_hit h m_meta_id).2 =
    Some [Json (JObj [("title", JStr "t"); ("_id", JStr "a"); ("n", JInt 1);
                      ("_meta", JNull)])].
Proof.
  intros h.
  destruct (C9_metadata_overwrites_source h
              [("title", JStr "t"); ("_id", JStr "in-source"); ("_meta", JObj []);
               ("n", JInt 1)] "_id" m_meta_id) as (E & _ & _).
  - reflexivity.
  - compute_done.
  - vm_compute. reflexivity.
  - split; [reflexivity|]. rewrite E. vm_compute. reflexivity.
Defined.


(** A page of a thousand hits is flushed as soon as the last one is
    buffered, before the loop goes on. *)
Example flush_at_threshold :
  let m := streaming (sample_opts ["title"; "n"] [] [] 5000) 5000
             (sample_world (sample_cluster true 0 (sample_page 5000 [])
                              (fun _ => sample_page 5000 [])) None) in
  let res := sample_page 5000 (replicate 1000 (sample_hit "a" 1)) in
  let out := scroll_loop 1 5000 res [] m in
  out.1 = OutOfFuel /\
  rows_written (self out.2) = 1000 /\
  List.length (default [] (the_staging out.2)) = 1000%nat.
Proof. vm_compute. repeat split. Qed.

(** * Further properties *)

(** ** The decorator in full *)

(** Every run of the decorator is some failed attempts, each followed by
    the pause, and then either an attempt whose outcome it lets through or
    the last attempt allowed, which is fatal. *)
Lemma f_retry_cases {A} (catches : exn -> bool) (delay : Z) (f : M A) (n : nat) :
  forall m,
    exists (k : nat) (m1 : machine),
      (k <= n)%nat /\ fails_in_a_row catches delay f k m m1 /\
      ((f_retry catches n delay f m = f m1 /\ lets_through catches (f m1).1) \/
       (k = n /\ exists e m2, f m1 = (Raise e, m2) /\ catches e = true /\
                  f_retry catches n delay f m = (Raise (SystemExit 1), fatal e m2))).
Proof.
  induction n as [|n IH]; intros m.
  - exists 0%nat, m. split; [lia|]. split; [constructor|].
    destruct (f m) as [[a|e|] m'] eqn:E.
    + left. split; [by apply f_retry_Ok|]. by intros e [=].
    + destruct (catches e) eqn:He.
      * right. split; [done|]. exists e, m'. split_and!; try done.
        by apply f_retry_fatal.
      * left. split; [by apply f_retry_uncaught|]. by intros e' [= <-].
    + left. split; [|by intros e [=]]. simpl. unfold try_except. by rewrite E.
  - destruct (f m) as [[a|e|] m'] eqn:E.
    + exists 0%nat, m. split; [lia|]. split; [constructor|]. left.
      rewrite E. split; [by apply f_retry_Ok|]. by intros e [=].
    + destruct (catches e) eqn:He.
      * destruct (IH (pause delay e m')) as (k & m1 & Hk & Hfails & Hcases).
        exists (S k), m1. split; [lia|]. split; [by eapply fails_more|].
        rewrite (f_retry_caught _ _ _ _ _ _ _ E He).
        destruct Hcases as [?|(-> & ?)]; [by left | by right].
      * exists 0%nat, m. split; [lia|]. split; [constructor|]. left. rewrite E.
        split; [by apply f_retry_uncaught|]. by intros e' [= <-].
    + exists 0%nat, m. split; [lia|]. split; [constructor|]. left. rewrite E.
      split; [|by intros e [=]]. simpl. unfold try_except. by rewrite E.
Qed.

Lemma f_retry_through {A} (catches : exn -> bool) (n : nat) (delay : Z) (f : M A)
    (m : machine) :
  lets_through catches (f m).1 -> f_retry catches n delay f m = f m.
Proof.
  intros Hthrough. destruct (f m) as [[a|e|] m'] eqn:E.
  - by apply f_retry_Ok.
  - eapply f_retry_uncaught; [exact E|]. by apply Hthrough.
  - destruct n; cbn [f_retry]; unfold try_except; by rewrite E.
Qed.

(** X1. When the first attempt does not raise the exception the decorator
    looks for, the decorated operation is the operation: same outcome, same
    state, nothing logged, no sleep. *)
Theorem X1_retry_is_transparent {A}
    (catches : exn -> bool) (tries delay : Z) (f : M A) (m : machine) :
  lets_through catches (f m).1 ->
  retry catches tries delay f m = f m.
Proof.
  intros Hthrough. unfold retry. by apply f_retry_through.
Qed.

(** X2. After [k] failed attempts, [k] being at most the try count, an
    attempt whose outcome the decorator lets through ends the decorated
    operation with that very outcome and state: earlier failures leave no
    mark on the result, only their log entries and sleeps in the world. *)
Theorem X2_retry_returns_first_outcome_let_through {A}
    (catches : exn -> bool) (tries delay : Z) (f : M A) (k : nat)
    (m m1 : machine) :
  (Z.of_nat k <= tries) ->
  fails_in_a_row catches delay f k m m1 ->
  lets_through catches (f m1).1 ->
  retry catches tries delay f m = f m1.
Proof.
  intros Hk Hfails Hthrough. unfold retry.
  replace (Z.to_nat tries) with (k + (Z.to_nat tries - k))%nat by lia.
  rewrite (f_retry_after_failures _ _ _ _ _ _ _ Hfails).
  by apply f_retry_through.
Qed.

(** X3. Whatever the operation and the cluster do, an exception that leaves
    the decorated operation is one the decorator does not catch, or the
    [SystemExit(1)] of its own fatal branch: with [ConnectionError] as the
    exception to check, no [ConnectionError] ever leaves it. *)
Theorem X3_retry_never_raises_what_it_catches {A}
    (catches : exn -> bool) (tries delay : Z) (f : M A) (m : machine) (e : exn) :
  (retry catches tries delay f m).1 = Raise e ->
  catches e = false \/ e = SystemExit 1.
Proof.
  unfold retry.
  destruct (f_retry_cases catches delay f (Z.to_nat tries) m)
    as (k & m1 & _ & _ & [[-> Hthrough]|(_ & e' & m2 & _ & _ & ->)]).
  - intros He. left. by apply Hthrough.
  - intros [= <-]. by right.
Qed.

(** X4. A try count of zero or less leaves the single final attempt: a
    failure of the kind looked for is fatal at once, with the fatal log
    entry and no sleep. *)
Theorem X4_retry_without_tries_fails_at_once {A}
    (catches : exn -> bool) (tries delay : Z) (f : M A) (m m' : machine) (e : exn) :
  tries <= 0 ->
  f m = (Raise e, m') -> catches e = true ->
  retry catches tries delay f m = (Raise (SystemExit 1), fatal e m') /\
  the_events is_sleep (fatal e m') = the_events is_sleep m'.
Proof.
  intros Htries Hf He. unfold retry.
  replace (Z.to_nat tries) with 0%nat by lia.
  split; [by apply f_retry_fatal|].
  unfold the_events, the_trace, fatal. cbn [env trace with_event].
  rewrite List.filter_app. simpl. by rewrite app_nil_r.
Qed.

(** ** One round trip to the cluster *)

Lemma call_cases {A} (kind : event -> bool) (r : request)
    (answer : cluster -> nat -> outcome A) (m : machine) :
  (call kind r answer m).2 = recorded (EvCall r) m /\
  ((exists a, (call kind r answer m).1 = Ok a) \/
   (exists msg, (call kind r answer m).1 = Raise (ConnectionError msg))).
Proof.
  unfold call. mstep. unfold emit. mstep.
  destruct (answer _ _) as [a|msg]; (split; [done|]); [left | right]; by eexists.
Qed.

Lemma fails_in_a_row_calls {A} (kind : event -> bool) (catches : exn -> bool)
    (delay : Z) (f : M A) (k : nat) (m m1 : machine) :
  (forall m0, the_calls kind (f m0).2 = S (the_calls kind m0)) ->
  (forall lvl msg, kind (EvLog lvl msg) = false) ->
  (forall d, kind (EvSleep d) = false) ->
  fails_in_a_row catches delay f k m m1 ->
  the_calls kind m1 = (the_calls kind m + k)%nat.
Proof.
  intros Hf Hlog Hsleep. induction 1 as [|k m m0 m1 e Hm _ _ IH]; [lia|].
  rewrite IH, pause_calls by done. specialize (Hf m). rewrite Hm in Hf.
  cbn [snd] in Hf. lia.
Qed.

Lemma f_retry_call_bounds {A} (kind : event -> bool) (catches : exn -> bool)
    (delay : Z) (f : M A) (n : nat) (m : machine) :
  (forall m0, the_calls kind (f m0).2 = S (the_calls kind m0)) ->
  (forall lvl msg, kind (EvLog lvl msg) = false) ->
  (forall d, kind (EvSleep d) = false) ->
  (the_calls kind m + 1 <= the_calls kind (f_retry catches n delay f m).2
     <= the_calls kind m + n + 1)%nat.
Proof.
  intros Hf Hlog Hsleep.
  destruct (f_retry_cases catches delay f n m)
    as (k & m1 & Hk & Hfails & [[-> _]|(_ & e & m2 & Hm1 & _ & ->)]);
    pose proof (fails_in_a_row_calls kind _ _ _ _ _ _ Hf Hlog Hsleep Hfails) as Hcalls.
  - rewrite Hf. lia.
  - cbn [snd]. specialize (Hf m1). rewrite Hm1 in Hf. cbn [snd] in Hf.
    unfold the_calls, fatal in *. cbn [env trace with_event].
    rewrite calls_snoc, Hlog. lia.
Qed.

(** X5. A decorated operation that sends one request per attempt sends at
    least one request and at most one more than the try count. *)
Theorem X5_retry_attempts_are_bounded {A}
    (kind : event -> bool) (catches : exn -> bool) (tries delay : Z)
    (f : M A) (m : machine) :
  (forall m0, the_calls kind (f m0).2 = S (the_calls kind m0)) ->
  (forall lvl msg, kind (EvLog lvl msg) = false) ->
  (forall d, kind (EvSleep d) = false) ->
  Z.of_nat (the_calls kind m) + 1
    <= Z.of_nat (the_calls kind (retry catches tries delay f m).2)
    <= Z.of_nat (the_calls kind m) + Z.max 0 tries + 1.
Proof.
  intros Hf Hlog Hsleep. unfold retry.
  pose proof (f_retry_call_bounds kind catches delay f (Z.to_nat tries) m Hf Hlog Hsleep).
  lia.
Qed.

(** ** Connection, scroll and cleanup *)

Lemma cluster_health_one_call (m : machine) :
  the_calls is_health (cluster_health m).2 = S (the_calls is_health m).
Proof.
  unfold cluster_health. rewrite (proj1 (call_cases _ _ _ m)).
  unfold the_calls, recorded. cbn [env trace with_event]. rewrite calls_snoc.
  simpl. lia.
Qed.

Lemma f_retry_keeps_self {A} (catches : exn -> bool) (n : nat) (delay : Z) (f : M A) :
  keeps self f -> keeps self (f_retry catches n delay f).
Proof. intros Hf. apply keeps_f_retry; [by intros ? ? ? | by intros ? ? | done]. Qed.

(** An operation that can only return or raise the connectivity error,
    once decorated, can only return or exit. *)
Lemma f_retry_returns_or_exits {A} (n : nat) (delay : Z) (f : M A) (m : machine) :
  (forall m0, (exists a, (f m0).1 = Ok a) \/
              (exists msg, (f m0).1 = Raise (ConnectionError msg))) ->
  (exists a, (f_retry is_ConnectionError n delay f m).1 = Ok a) \/
  (f_retry is_ConnectionError n delay f m).1 = Raise (SystemExit 1).
Proof.
  intros Hf.
  destruct (f_retry_cases is_ConnectionError delay f n m)
    as (k & m1 & _ & _ & [[-> Hthrough]|(_ & e & m2 & _ & _ & ->)]); [|by right].
  destruct (Hf m1) as [?|[msg Hmsg]]; [by left|].
  by specialize (Hthrough _ Hmsg).
Qed.

(** X6. [create_connection] only pings. The cluster either answers or
    raises the connectivity error; whichever it does, and how often, the
    method sends between one and four health requests, ends by returning
    or by [SystemExit(1)], and leaves the two files and every attribute the
    record [EsXport] keeps as they were (on success the source also binds
    [es_conn] to the client, a name that nothing reads). *)
Theorem X6_create_connection_only_pings (m : machine) :
  let out := create_connection m in
  self out.2 = self m /\
  the_staging out.2 = the_staging m /\
  the_output out.2 = the_output m /\
  (the_calls is_health m + 1 <= the_calls is_health out.2
     <= the_calls is_health m + 4)%nat /\
  (out.1 = Ok tt \/ out.1 = Raise (SystemExit 1)).
Proof.
  cbn zeta. unfold create_connection, retry.
  change (Z.to_nat TIMES_TO_TRY) with 3%nat.
  split; [|split; [|split; [|split]]].
  - apply f_retry_keeps_self. unfold cluster_health. solve_keeps.
  - apply keeps_f_retry; [by intros ? ? ? | by intros ? ? |].
    unfold cluster_health. solve_keeps.
  - apply keeps_f_retry; [by intros ? ? ? | by intros ? ? |].
    unfold cluster_health. solve_keeps.
  - pose proof (f_retry_call_bounds is_health is_ConnectionError RETRY_DELAY
                  cluster_health 3 m cluster_health_one_call
                  (fun _ _ => eq_refl) (fun _ => eq_refl)) as Hcalls.
    lia.
  - destruct (f_retry_returns_or_exits 3 RETRY_DELAY cluster_health m) as [[[] Ha]|He].
    + intros m0. apply call_cases.
    + by left.
    + by right.
Qed.

Lemma scroll_one_call (sid : string) (m : machine) :
  the_calls is_scroll ((s <- get_self ;; scroll (scroll_time s) sid) m).2
  = S (the_calls is_scroll m).
Proof.
  mstep. unfold scroll. rewrite (proj1 (call_cases _ _ _ m)).
  unfold the_calls, recorded. cbn [env trace with_event]. rewrite calls_snoc.
  simpl. lia.
Qed.

(** X7. [next_scroll] changes nothing of the object and of the two files,
    sends between one and four scroll requests, and, the cluster either
    answering or raising the connectivity error, ends by returning a page
    or by [SystemExit(1)]: the loop that calls it never sees a connectivity
    error. *)
Theorem X7_next_scroll_returns_or_exits (sid : string) (m : machine) :
  let out := next_scroll sid m in
  self out.2 = self m /\
  the_staging out.2 = the_staging m /\
  the_output out.2 = the_output m /\
  (the_calls is_scroll m + 1 <= the_calls is_scroll out.2
     <= the_calls is_scroll m + 4)%nat /\
  ((exists p, out.1 = Ok p) \/ out.1 = Raise (SystemExit 1)).
Proof.
  cbn zeta. unfold next_scroll, retry.
  change (Z.to_nat TIMES_TO_TRY) with 3%nat.
  split; [|split; [|split; [|split]]].
  - apply f_retry_keeps_self. unfold scroll. solve_keeps.
  - apply keeps_f_retry; [by intros ? ? ? | by intros ? ? |].
    unfold scroll. solve_keeps.
  - apply keeps_f_retry; [by intros ? ? ? | by intros ? ? |].
    unfold scroll. solve_keeps.
  - pose proof (f_retry_call_bounds is_scroll is_ConnectionError RETRY_DELAY
                  _ 3 m (scroll_one_call sid)
                  (fun _ _ => eq_refl) (fun _ => eq_refl)) as Hcalls.
    lia.
  - apply f_retry_returns_or_exits. intros m0. mstep. apply call_cases.
Qed.

(** X8. [clean_scroll_ids] never fails: whether the cluster answers or
    raises, it returns normally, having sent the one request to clear the
    scroll ["_all"] and changed nothing else. *)
Theorem X8_clean_scroll_ids_never_fails (m : machine) :
  clean_scroll_ids m = (Ok tt, recorded (EvCall (ReqClearScroll "_all")) m).
Proof.
  unfold clean_scroll_ids, try_except, clear_scroll.
  destruct (call_cases is_clear_scroll (ReqClearScroll "_all")
              (fun c n => cl_clear_scroll c n "_all") m) as [Hm [[[] Hr]|[msg Hr]]];
    destruct (call _ _ _ m) as [r m']; cbn [fst snd] in *; by subst.
Qed.

(** ** The index check in full *)

Lemma check_indexes_body_self (m : machine) :
  self (check_indexes_body m).2 =
  match (check_indexes_body m).1 with
  | Ok _ => self (with_index_prefixes (narrowed (index_prefixes (the_opts m))) m)
  | _ => self m
  end.
Proof.
  unfold check_indexes_body, narrowed, the_opts. mstep.
  destruct (bool_decide _); mstep; [done|].
  unfold indices_exists, call. mstep. unfold emit. mstep.
  destruct (cl_indices_exists _ _ _) as [[]|msg]; mstep; try done.
Qed.

Lemma fails_in_a_row_self {A} (catches : exn -> bool) (delay : Z) (f : M A)
    (k : nat) (m m1 : machine) :
  (forall m0 e m', f m0 = (Raise e, m') -> self m' = self m0) ->
  fails_in_a_row catches delay f k m m1 -> self m1 = self m.
Proof.
  intros Hf. induction 1 as [|k m m0 m1 e Hm _ _ IH]; [done|].
  rewrite IH. simpl. by eapply Hf.
Qed.

(** X9. [check_indexes] touches the options in one way only. With
    ["_all"] among the index prefixes it asks the cluster nothing and
    narrows the list to ["_all"] alone. And whenever it returns, after any
    number of retried attempts, the index list is the narrowed one, that
    is, unchanged without the wildcard, and nothing else of the object has
    changed. *)
Theorem X9_check_indexes_narrows_to_wildcard (m : machine) :
  ("_all" ∈ index_prefixes (the_opts m) ->
   check_indexes m = (Ok tt, with_index_prefixes ["_all"] m)) /\
  ((check_indexes m).1 = Ok tt ->
   self (check_indexes m).2 =
     self (with_index_prefixes (narrowed (index_prefixes (the_opts m))) m) /\
   ("_all" ∉ index_prefixes (the_opts m) ->
    the_opts (check_indexes m).2 = the_opts m)).
Proof.
  split.
  - intros Hall. unfold check_indexes, retry. apply f_retry_Ok.
    unfold check_indexes_body. mstep. unfold the_opts in Hall.
    by rewrite bool_decide_eq_true_2.
  - intros Hok.
    assert (Hself : self (check_indexes m).2 =
              self (with_index_prefixes (narrowed (index_prefixes (the_opts m))) m)).
    { revert Hok. unfold check_indexes, retry.
      destruct (f_retry_cases is_ConnectionError RETRY_DELAY check_indexes_body
                  (Z.to_nat TIMES_TO_TRY) m)
        as (k & m1 & _ & Hfails & [[-> _]|(_ & e & m2 & _ & _ & ->)]); [|done].
      intros Hok. rewrite check_indexes_body_self, Hok.
      assert (Hm1 : self m1 = self m).
      { eapply fails_in_a_row_self; [|exact Hfails]. intros m0 e m' Hm0.
        pose proof (check_indexes_body_self m0) as H. by rewrite Hm0 in H. }
      unfold with_index_prefixes, the_opts. cbn [self]. by rewrite Hm1. }
    split; [exact Hself|]. intros Hnot. unfold the_opts. rewrite Hself.
    unfold narrowed. rewrite bool_decide_eq_false_2 by done.
    unfold with_index_prefixes, the_opts. cbn [self with_opts opts].
    by destruct (opts (self m)).
Qed.

(** ** Field validation in full *)

Lemma for_each_app {A S} (body : A -> S -> M S) (l1 l2 : list A) :
  forall (acc : S) (m : machine),
    for_each (l1 ++ l2) body acc m =
    (acc' <- for_each l1 body acc ;; for_each l2 body acc') m.
Proof.
  induction l1 as [|x l1 IH]; intros acc m; cbn [for_each app].
  - mstep. reflexivity.
  - mstep. unfold bind at 1 2. destruct (body x acc m) as [[acc1| |] m1]; [|done..].
    apply IH.
Qed.

Lemma all_expected_fields_run (m : machine) :
  Forall (fun q => q ≠ []) (sort (the_opts m)) ->
  all_expected_fields m =
  (Ok (list_remove "_all" (fields (the_opts m) ++ sort_roots (sort (the_opts m)))), m).
Proof.
  intros Hsort. unfold all_expected_fields. mstep.
  rewrite (bind_Ok _ _ _ _ _ (sort_params_Ok _ _ m Hsort)). unfold the_opts.
  case_bool_decide as Hall; [done|]. by rewrite list_remove_absent.
Qed.

Lemma asked_cluster (indices : list string) :
  forall m, the_cluster (asked indices m) = the_cluster m.
Proof.
  unfold asked. induction indices as [|i indices IH]; intros m; [done|].
  cbn [foldl]. by rewrite IH.
Qed.

Lemma asked_app (l1 l2 : list string) (m : machine) :
  asked (l1 ++ l2) m = asked l2 (asked l1 m).
Proof. unfold asked. apply foldl_app. Qed.

Lemma fetch_fields_run (schema : string -> list string) (indices : list string) :
  forall (acc : gmap string (list string)) (m : machine),
    has_schema (the_cluster m) indices schema ->
    for_each indices
      (fun index (all_fields_dict : gmap string (list string)) =>
         response <- get_mapping index ;;
         props <- properties_of index response ;;
         ret (<[index := props]> all_fields_dict))
      acc m = (Ok (fields_dict schema indices acc), asked indices m).
Proof.
  induction indices as [|i indices IH]; intros acc m Hschema; [done|].
  cbn [for_each]. unfold get_mapping at 1, call. mstep.
  destruct (Hschema (calls is_get_mapping (trace (env m))) i) as (resp & Hreply & Hget).
  { by left. }
  unfold the_cluster in Hreply. rewrite Hreply. unfold emit. mstep.
  unfold properties_of at 1. rewrite Hget. mstep.
  rewrite IH; [done|]. intros n index Hin. apply Hschema. by right.
Qed.

Lemma known_fields (schema : string -> list string) (indices : list string) (f : string) :
  f ∈ all_es_fields (fields_dict schema indices ∅) <->
  f ∈ concat (map schema indices).
Proof.
  rewrite all_es_fields_spec, (list_elem_of_In (concat _) f), in_concat. split.
  - intros (index & props & Hd & Hx). rewrite fields_dict_lookup in Hd.
    case_decide as Hin; [|by rewrite lookup_empty in Hd]. simplify_eq.
    exists (schema index). split; [|by apply list_elem_of_In].
    apply in_map. by apply list_elem_of_In.
  - intros (props & Hprops & Hx). apply in_map_iff in Hprops as (index & <- & Hin).
    exists index, (schema index). split; [|by apply list_elem_of_In].
    rewrite fields_dict_lookup, decide_True; [done | by apply list_elem_of_In].
Qed.

Lemma check_fields_run (es_fields : gset string) (known : list string)
    (expected : list string) (m : machine) :
  (forall f, f ∈ es_fields <-> f ∈ known) ->
  for_each expected
    (fun element (_ : unit) =>
       if bool_decide (element ∉ es_fields) then
         log_error ("Fields " +:+ element +:+ " doesn't exist in any index.") ;;
         sys_exit 1
       else ret tt)
    tt m =
  match List.find (fun f => bool_decide (f ∉ known)) expected with
  | None => (Ok tt, m)
  | Some f =>
      (Raise (SystemExit 1),
       recorded (EvLog ERROR ("Fields " +:+ f +:+ " doesn't exist in any index.")) m)
  end.
Proof.
  intros Hknown. induction expected as [|f expected IH]; [done|].
  cbn [for_each List.find].
  rewrite (bool_decide_ext (f ∉ es_fields) (f ∉ known)) by (by rewrite Hknown).
  destruct (bool_decide (f ∉ known)); mstep; [|exact IH].
  unfold log_error, emit, sys_exit. by mstep.
Qed.

(** X10. Field validation in full, when the mapping lookups answer with
    each target index's properties. It asks for the mapping of every target
    index, in order, and changes nothing else. The fields it checks are the
    output fields followed by the sort-key roots, less the first ["_all"]
    only, so a wildcard does not switch the check off for the other fields.
    It returns when all of them are known to some index, and otherwise logs
    the first unknown one and raises [SystemExit(1)]. *)
Theorem X10_validate_fields_in_full (schema : string -> list string) (m : machine) :
  Forall (fun q => q ≠ []) (sort (the_opts m)) ->
  has_schema (the_cluster m) (index_prefixes (the_opts m)) schema ->
  let indices := index_prefixes (the_opts m) in
  let requested :=
    list_remove "_all" (fields (the_opts m) ++ sort_roots (sort (the_opts m))) in
  _validate_fields m =
  match first_unknown schema indices requested with
  | None => (Ok tt, asked indices m)
  | Some f =>
      (Raise (SystemExit 1),
       recorded (EvLog ERROR ("Fields " +:+ f +:+ " doesn't exist in any index."))
                (asked indices m))
  end.
Proof.
  intros Hsort Hschema indices requested. unfold _validate_fields. mstep.
  rewrite (bind_Ok _ _ _ _ _ (all_expected_fields_run m Hsort)).
  unfold fetch_fields.
  rewrite (bind_Ok _ _ _ _ _ (fetch_fields_run schema _ ∅ m Hschema)).
  apply check_fields_run. intros f. apply known_fields.
Qed.

Lemma validate_fields_missing_entry
    (schema : string -> list string)
    (before : list string) (index : string) (after : list string) (m : machine) :
  Forall (fun q => q ≠ []) (sort (the_opts m)) ->
  index_prefixes (the_opts m) = before ++ index :: after ->
  has_schema (the_cluster m) before schema ->
  lacks_entry (the_cluster m) index ->
  _validate_fields m = (Raise (KeyError index), asked (before ++ [index]) m).
Proof.
  intros Hsort Hindices Hschema Hlacks.
  unfold _validate_fields. mstep.
  rewrite (bind_Ok _ _ _ _ _ (all_expected_fields_run m Hsort)).
  unfold fetch_fields. unfold the_opts in Hindices. rewrite Hindices.
  assert (Hf : forall acc,
             for_each (before ++ index :: after)
               (fun index (all_fields_dict : gmap string (list string)) =>
                  response <- get_mapping index ;;
                  props <- properties_of index response ;;
                  ret (<[index := props]> all_fields_dict))
               acc m = (Raise (KeyError index), asked (before ++ [index]) m));
    [|by rewrite (bind_Raise _ _ _ _ _ (Hf ∅))].
  intros acc. rewrite for_each_app.
  rewrite (bind_Ok _ _ _ _ _ (fetch_fields_run schema _ acc m Hschema)).
  cbn [for_each]. unfold get_mapping at 1, call. mstep.
  destruct (Hlacks (calls is_get_mapping (trace (env (asked before m)))))
    as (resp & Hreply & Hget).
  rewrite <- (asked_cluster before m) in Hreply. unfold the_cluster in Hreply.
  rewrite Hreply. unfold emit. mstep. unfold properties_of at 1. rewrite Hget.
  mstep. by rewrite asked_app.
Qed.

Lemma search_query_validation_error (fuel : nat) (e : exn) (m m' : machine) :
  _validate_fields m = (Raise e, m') -> is_ConnectionError e = false ->
  search_query fuel m = (Raise e, m').
Proof.
  intros Hv He. unfold search_query, retry.
  eapply f_retry_uncaught; [|exact He].
  unfold search_query_body. by rewrite (bind_Raise _ _ _ _ _ Hv).
Qed.

(** X11. When the reply to a mapping lookup has no entry under the
    requested name, as for an index pattern or ["_all"], whose reply is keyed
    by the concrete index names, the lookup [response[index]] raises
    [KeyError]. [search_query] does not catch it and does not retry: it ends
    at that lookup, with no search request sent and nothing else changed. *)
Theorem X11_mapping_without_entry_raises_KeyError
    (fuel : nat) (schema : string -> list string)
    (before : list string) (index : string) (after : list string) (m : machine) :
  Forall (fun q => q ≠ []) (sort (the_opts m)) ->
  index_prefixes (the_opts m) = before ++ index :: after ->
  has_schema (the_cluster m) before schema ->
  lacks_entry (the_cluster m) index ->
  search_query fuel m = (Raise (KeyError index), asked (before ++ [index]) m).
Proof.
  intros Hsort Hindices Hschema Hlacks.
  apply search_query_validation_error; [|done].
  by apply (validate_fields_missing_entry schema before index after).
Qed.

(** ** The root of a sort key *)

Lemma split_cases (c : ascii) (s : string) :
  exists p ps,
    split c s = p :: ps /\
    (c ∉ String.list_ascii_of_string p) /\
    (s = p /\ ps = [] \/
     exists tail, s = p +:+ String c EmptyString +:+ tail).
Proof.
  induction s as [|a s (p & ps & Hsplit & Hp & Hs)]; cbn [split].
  - exists EmptyString, []. split; [done|]. split; [apply not_elem_of_nil | by left].
  - case_decide as Hac.
    + subst a. exists EmptyString, (split c s).
      split; [done|]. split; [apply not_elem_of_nil|]. right. by exists s.
    + rewrite Hsplit. exists (String a p), ps. split; [done|]. split.
      * cbn [String.list_ascii_of_string]. rewrite not_elem_of_cons. split; [done|exact Hp].
      * destruct Hs as [[-> ->]|[tail ->]]; [by left|]. right. by exists tail.
Qed.

(** X12. The field checked for a sort clause is the part of its key before
    the first dot: it holds no dot, and the key is either that part alone or
    that part, a dot and a remainder. So [parts] is never empty and the
    fallback to the whole key is never taken. *)
Theorem X12_sort_param_is_the_key_up_to_the_first_dot
    (sort_key order : string) (others : list (string * string)) (m : machine) :
  exists root,
    sort_param ((sort_key, order) :: others) m = (Ok root, m) /\
    ("."%char ∉ String.list_ascii_of_string root) /\
    (sort_key = root \/ exists tail, sort_key = root +:+ "." +:+ tail).
Proof.
  destruct (split_cases "." sort_key) as (p & ps & Hsplit & Hp & Hs).
  exists p. unfold sort_param. rewrite Hsplit. split; [done|]. split; [done|].
  destruct Hs as [[-> _]|[tail ->]]; [by left|]. right. by exists tail.
Qed.

(** ** What a method preserves *)

Section Preserves.
Context (P : machine -> Prop).

Lemma preserves_ret {A} (a : A) : preserves P (ret a).
Proof. by intros m. Qed.

Lemma preserves_raise {A} (e : exn) : preserves P (raise (A := A) e).
Proof. by intros m. Qed.

Lemma preserves_out_of_fuel {A} : preserves P (out_of_fuel (A := A)).
Proof. by intros m. Qed.

Lemma preserves_get_self : preserves P get_self.
Proof. by intros m. Qed.

Lemma preserves_get_env : preserves P get_env.
Proof. by intros m. Qed.

Lemma preserves_bind {A B} (c : M A) (k : A -> M B) :
  preserves P c -> (forall a, preserves P (k a)) -> preserves P (bind c k).
Proof.
  intros Hc Hk m Hm. unfold bind. specialize (Hc m Hm).
  destruct (c m) as [[a|e|] m1]; cbn [snd] in *; [by apply Hk | done..].
Qed.

Lemma preserves_bind_get_self {B} (k : EsXport -> M B) :
  (forall m, P m -> P (k (self m) m).2) -> preserves P (bind get_self k).
Proof. intros Hk m Hm. rewrite bind_get_self. by apply Hk. Qed.

Lemma preserves_try_except {A} (c : M A) (catches : exn -> bool) (h : exn -> M A) :
  preserves P c -> (forall e, preserves P (h e)) -> preserves P (try_except c catches h).
Proof.
  intros Hc Hh m Hm. unfold try_except. specialize (Hc m Hm).
  destruct (c m) as [[a|e|] m1]; cbn [snd] in *; [done| |done].
  destruct (catches e); [by apply Hh | done].
Qed.

Lemma preserves_for_each {A S} (l : list A) (body : A -> S -> M S) :
  (forall x acc, preserves P (body x acc)) ->
  forall acc, preserves P (for_each l body acc).
Proof.
  intros Hbody. induction l as [|x l IH]; intros acc; cbn [for_each].
  - apply preserves_ret.
  - apply preserves_bind; [apply Hbody | apply IH].
Qed.

Lemma preserves_modify_self (f : EsXport -> EsXport) :
  (forall m, P m -> P (on_self f m)) -> preserves P (modify_self f).
Proof. intros Hf m Hm. by apply Hf. Qed.

Lemma preserves_modify_env (f : world -> world) :
  (forall m, P m -> P (on_env f m)) -> preserves P (modify_env f).
Proof. intros Hf m Hm. by apply Hf. Qed.

Lemma preserves_call {A} (kind : event -> bool) (r : request)
    (answer : cluster -> nat -> outcome A) :
  preserves P (emit (EvCall r)) -> preserves P (call kind r answer).
Proof.
  intros He. unfold call. apply preserves_bind; [apply preserves_get_env | intros w].
  apply preserves_bind; [done | intros _].
  destruct (answer _ _); [apply preserves_ret | apply preserves_raise].
Qed.

Lemma preserves_f_retry {A} (catches : exn -> bool) (n : nat) (delay : Z) (f : M A) :
  (forall e, preserves P (emit e)) ->
  preserves P f -> preserves P (f_retry catches n delay f).
Proof.
  intros He Hf. induction n as [|n IH]; cbn [f_retry].
  - apply preserves_try_except; [done|]. intros e.
    apply preserves_bind; [apply He | intros; apply preserves_raise].
  - apply preserves_try_except; [done|]. intros e.
    apply preserves_bind; [apply He | intros _].
    apply preserves_bind; [apply He | intros _].
    apply preserves_bind; [apply He | intros _; apply IH].
Qed.
End Preserves.

(** ** The footprint of [search_query] *)

Section Footprint.
Context (m0 : machine).

Lemma footprint_emit (e : event) : preserves (rtc search_step m0) (emit e).
Proof. intros m Hm. eapply rtc_r; [exact Hm | apply step_event]. Qed.

Lemma footprint_call {A} (kind : event -> bool) (r : request)
    (answer : cluster -> nat -> outcome A) :
  preserves (rtc search_step m0) (call kind r answer).
Proof. apply preserves_call, footprint_emit. Qed.

Lemma footprint_validate_fields : preserves (rtc search_step m0) _validate_fields.
Proof.
  unfold _validate_fields.
  apply preserves_bind; [apply preserves_get_self | intros s].
  apply preserves_bind.
  { unfold all_expected_fields.
    apply preserves_bind; [apply preserves_get_self | intros s'].
    apply preserves_bind; [|intros; apply preserves_ret].
    apply preserves_for_each. intros q acc.
    apply preserves_bind; [|intros; apply preserves_ret].
    unfold sort_param. destruct q as [|[] ?]; [apply preserves_raise | apply preserves_ret]. }
  intros expected. apply preserves_bind.
  { apply preserves_for_each. intros index d.
    apply preserves_bind; [apply footprint_call | intros response].
    apply preserves_bind; [|intros; apply preserves_ret].
    unfold properties_of.
    destruct (mapping_get _ _) as [[]|];
      [apply preserves_ret | apply preserves_raise..]. }
  intros d. apply preserves_for_each. intros element [].
  case_match; [|apply preserves_ret].
  apply preserves_bind; [apply footprint_emit | intros; apply preserves_raise].
Qed.

Lemma footprint_flush_to_file (hit_list : list hit) :
  preserves (rtc search_step m0) (flush_to_file hit_list).
Proof.
  unfold flush_to_file. apply preserves_bind.
  { apply preserves_modify_env. intros m Hm.
    eapply rtc_r; [exact Hm | apply step_open]. }
  intros _. apply preserves_for_each. intros h []. unfold flush_hit.
  apply preserves_bind; [apply preserves_get_self | intros s].
  apply preserves_bind.
  { unfold source_of.
    destruct (dict_get _ _) as [[]|]; (apply preserves_ret || apply preserves_raise). }
  intros data. case_match; [apply preserves_raise|].
  apply preserves_modify_env. intros m Hm.
  eapply rtc_r; [exact Hm | apply step_line].
Qed.

Lemma footprint_next_scroll (sid : string) :
  preserves (rtc search_step m0) (next_scroll sid).
Proof.
  unfold next_scroll, retry. apply preserves_f_retry; [apply footprint_emit|].
  apply preserves_bind; [apply preserves_get_self | intros s].
  apply footprint_call.
Qed.

Lemma footprint_consume_hit (h : hit) (hit_list : list hit) :
  preserves (rtc search_step m0) (consume_hit h hit_list).
Proof.
  unfold consume_hit. apply preserves_bind.
  { apply preserves_modify_self. intros m Hm.
    eapply rtc_r; [exact Hm | apply step_row]. }
  intros _. case_decide; [|apply preserves_ret].
  apply preserves_bind; [apply footprint_flush_to_file | intros; apply preserves_ret].
Qed.

Lemma footprint_scroll_loop (fuel : nat) :
  forall total res hit_list,
    preserves (rtc search_step m0) (scroll_loop fuel total res hit_list).
Proof.
  induction fuel as [|fuel IH]; intros total res hit_list; cbn [scroll_loop];
    [apply preserves_out_of_fuel|].
  apply preserves_bind_get_self. intros m Hm.
  case_decide; [done|].
  set (rest := fun _ : unit => match hits res with [] => _ | _ => _ end).
  assert (Hrest : preserves (rtc search_step m0) (rest tt)).
  { subst rest. cbv beta. destruct (hits res) as [|h hs].
    - apply preserves_bind; [apply footprint_emit | intros; apply preserves_ret].
    - apply preserves_bind.
      { apply preserves_for_each. intros x acc. apply footprint_consume_hit. }
      intros acc. apply preserves_bind; [apply footprint_next_scroll | intros res'].
      apply IH. }
  case_bool_decide as Hid.
  - rewrite bind_modify_self. apply Hrest.
    eapply rtc_r; [exact Hm | by apply step_scroll_id].
  - rewrite bind_ret. by apply Hrest.
Qed.

Lemma footprint_write_to_temp_file (fuel : nat) (res : page) :
  preserves (rtc search_step m0) (write_to_temp_file fuel res).
Proof.
  unfold write_to_temp_file.
  apply preserves_bind; [apply preserves_get_self | intros s].
  apply preserves_bind; [apply footprint_scroll_loop | intros hit_list].
  apply footprint_flush_to_file.
Qed.

Lemma footprint_search_query (fuel : nat) :
  preserves (rtc search_step m0) (search_query fuel).
Proof.
  unfold search_query, retry. apply preserves_f_retry; [apply footprint_emit|].
  unfold search_query_body.
  apply preserves_bind; [apply footprint_validate_fields | intros _].
  apply preserves_bind.
  { unfold prepare_search_query.
    apply preserves_bind; [apply preserves_get_self | intros s].
    apply preserves_modify_self. intros m Hm.
    eapply rtc_r; [exact Hm | apply step_search_args]. }
  intros _. apply preserves_bind; [apply preserves_get_self | intros s].
  apply preserves_bind; [apply footprint_call | intros res].
  apply preserves_bind.
  { apply preserves_modify_self. intros m Hm.
    eapply rtc_r; [exact Hm | apply step_num_results]. }
  intros _. apply preserves_bind; [apply footprint_emit | intros _].
  case_decide; [apply footprint_write_to_temp_file | apply preserves_ret].
Qed.
End Footprint.

Lemma search_steps_ind (P : machine -> Prop) (m m' : machine) :
  (forall m1 m2, search_step m1 m2 -> P m1 -> P m2) ->
  rtc search_step m m' -> P m -> P m'.
Proof. intros Hstep. induction 1; eauto. Qed.

(** Everything [search_query] and [write_to_temp_file] do to the machine
    is a sequence of the updates of [search_step]. *)
Lemma search_query_steps (fuel : nat) (m : machine) :
  rtc search_step m (search_query fuel m).2.
Proof. by apply footprint_search_query. Qed.

Lemma write_to_temp_file_steps (fuel : nat) (res : page) (m : machine) :
  rtc search_step m (write_to_temp_file fuel res m).2.
Proof. by apply footprint_write_to_temp_file. Qed.

(** X13. The scroll ids the object collects stay pairwise distinct: the
    streaming loop appends the id of a page only when it is not in the list
    yet, whatever the cluster returns. *)
Theorem X13_scroll_ids_stay_distinct (fuel : nat) (res : page) (m : machine) :
  NoDup (scroll_ids (self m)) ->
  NoDup (scroll_ids (self (write_to_temp_file fuel res m).2)) /\
  NoDup (scroll_ids (self (search_query fuel m).2)).
Proof.
  intros Hm.
  assert (Hstep : forall m1 m2, search_step m1 m2 ->
            NoDup (scroll_ids (self m1)) -> NoDup (scroll_ids (self m2))).
  { intros m1 m2 [| | | |sid m1' Hsid| |] Hnd;
      cbn [self on_self recorded on_env scroll_ids with_search_args
           with_num_results with_rows_written with_scroll_ids]; try done.
    apply list.NoDup_app. split; [done|]. split; [|apply list.NoDup_singleton].
    by intros x Hx ->%list_elem_of_singleton. }
  split.
  - apply (search_steps_ind (fun m' => NoDup (scroll_ids (self m'))) m _ Hstep);
      [apply write_to_temp_file_steps | exact Hm].
  - apply (search_steps_ind (fun m' => NoDup (scroll_ids (self m'))) m _ Hstep);
      [apply search_query_steps | exact Hm].
Qed.

(** X14. The streaming counters only grow: [search_query] never lowers
    [rows_written], and [scroll_ids] is only ever extended at its end. *)
Theorem X14_search_query_counters_only_grow (fuel : nat) (m : machine) :
  rows_written (self m) <= rows_written (self (search_query fuel m).2) /\
  scroll_ids (self m) `prefix_of` scroll_ids (self (search_query fuel m).2).
Proof.
  apply (search_steps_ind
           (fun m' => rows_written (self m) <= rows_written (self m') /\
                      scroll_ids (self m) `prefix_of` scroll_ids (self m'))
           m _); [|apply search_query_steps|done].
  intros m1 m2 [| | | |sid m1' Hsid| |] [Hrows Hids];
    cbn [self on_self recorded on_env scroll_ids rows_written
         with_search_args with_num_results with_rows_written with_scroll_ids];
    (split; [lia || done|]); try done.
  by apply prefix_app_r.
Qed.

Lemma extends_file_refl (f : option (list line)) : extends_file f f.
Proof. destruct f as [l|]; [|done]. exists []. by rewrite app_nil_r. Qed.

(** X15. [search_query] only ever appends to the staging file: it never
    removes the file, and the lines the file held before, from an earlier
    attempt or an earlier run, stay in front of whatever is added. *)
Theorem X15_search_query_only_appends_to_staging (fuel : nat) (m : machine) :
  extends_file (the_staging m) (the_staging (search_query fuel m).2).
Proof.
  apply (search_steps_ind (fun m' => extends_file (the_staging m) (the_staging m')) m _);
    [|apply search_query_steps|apply extends_file_refl].
  intros m1 m2 [| | | |sid m1' Hsid|m1'|l m1'] Hext; unfold the_staging in *;
    cbn [env on_self recorded on_env staging with_event open_append append_line
         with_staging]; try done.
  - destruct (staging (env m1')) as [l|]; cbn [default extends_file] in *; [done|].
    exists []. by rewrite Hext.
  - destruct (staging (env m1')) as [l0|]; cbn [default extends_file] in *.
    + destruct Hext as [more ->]. exists (more ++ [l]). by rewrite app_assoc.
    + exists [l]. by rewrite Hext.
Qed.

(** X16. [search_query] leaves the configuration alone: the options, the
    scroll time, the path of the staging file and the CSV headers of the
    object, the output file and the cluster are the same after it as
    before, however it ends. *)
Theorem X16_search_query_leaves_configuration (fuel : nat) (m : machine) :
  let m' := (search_query fuel m).2 in
  the_opts m' = the_opts m /\
  scroll_time (self m') = scroll_time (self m) /\
  tmp_file (self m') = tmp_file (self m) /\
  csv_headers (self m') = csv_headers (self m) /\
  the_output m' = the_output m /\
  the_cluster m' = the_cluster m.
Proof.
  cbn zeta.
  apply (search_steps_ind
           (fun m' => the_opts m' = the_opts m /\
                      scroll_time (self m') = scroll_time (self m) /\
                      tmp_file (self m') = tmp_file (self m) /\
                      csv_headers (self m') = csv_headers (self m) /\
                      the_output m' = the_output m /\
                      the_cluster m' = the_cluster m)
           m _); [|apply search_query_steps|done].
  by intros m1 m2 [| | | |sid m1' Hsid| |].
Qed.

(** ** The wildcard index *)

(** X17. Exporting from all indices stops at field validation. With
    ["_all"] among the index prefixes, [check_indexes] narrows the list to
    ["_all"], and [search_query] then looks the mapping reply up under the
    name ["_all"]; when the reply has no entry under that name, the run of
    the two ends in [KeyError], after the one mapping request and with no
    search sent. *)
Theorem X17_wildcard_index_fails_at_validation (fuel : nat) (m : machine) :
  "_all" ∈ index_prefixes (the_opts m) ->
  Forall (fun q => q ≠ []) (sort (the_opts m)) ->
  lacks_entry (the_cluster m) "_all" ->
  (check_indexes ;; search_query fuel) m =
  (Raise (KeyError "_all"), asked ["_all"] (with_index_prefixes ["_all"] m)).
Proof.
  intros Hall Hsort Hlacks.
  assert (Hcheck : check_indexes m = (Ok tt, with_index_prefixes ["_all"] m)).
  { unfold check_indexes, retry. apply f_retry_Ok.
    unfold check_indexes_body. mstep. unfold the_opts in Hall.
    by rewrite bool_decide_eq_true_2. }
  rewrite (bind_Ok _ _ _ _ _ Hcheck).
  apply search_query_validation_error; [|done].
  apply (validate_fields_missing_entry (fun _ => []) [] "_all" []); try done.
  intros n index Hin. by apply elem_of_nil in Hin.
Qed.

(** ** The staging writer at its edges *)

Lemma source_of_fails (h : hit) (m : machine) :
  hit_source h = None ->
  exists e, source_of h m = (Raise e, m) /\
            (dict_get "_source" h = None -> e = KeyError "_source").
Proof.
  unfold hit_source, source_of. intros Hsrc.
  destruct (dict_get "_source" h) as [[]|]; try done; by eexists.
Qed.

Lemma open_then_stage {A} (f : A -> line) (l : list A) (m : machine) :
  (if l is [] then on_env open_append m
   else stage_lines (map f l) (on_env open_append m))
  = stage_lines (map f l) m.
Proof.
  unfold stage_lines, on_env, open_append. destruct l as [|x l]; simpl.
  - by rewrite app_nil_r.
  - done.
Qed.

(** X18. [flush_to_file] stops at the first hit it cannot stage, one
    without a ["_source"] dictionary: the exception propagates ([KeyError]
    when the key is missing), the lines of the hits before it stay in the
    staging file, and no later hit is looked at. *)
Theorem X18_flush_stops_at_first_unstageable_hit
    (good : list hit) (bad : hit) (rest : list hit) (m : machine) :
  "_source" ∉ meta_fields (the_opts m) ->
  Forall well_formed good ->
  hit_source bad = None ->
  exists e,
    flush_to_file (good ++ bad :: rest) m =
      (Raise e, stage_lines (map (staged_line (meta_fields (the_opts m))) good) m) /\
    (dict_get "_source" bad = None -> e = KeyError "_source").
Proof.
  intros Hmeta Hgood Hbad.
  set (m1 := stage_lines (map (staged_line (meta_fields (the_opts m))) good) m).
  destruct (source_of_fails bad m1 Hbad) as (e & Hsrc & He).
  exists e. split; [|exact He].
  unfold flush_to_file. rewrite bind_modify_env. rewrite for_each_app.
  rewrite (bind_Ok _ _ _ _ _
             (flush_hits_Ok good (on_env open_append m) Hmeta Hgood)).
  change (the_opts (on_env open_append m)) with (the_opts m).
  rewrite open_then_stage. fold m1. cbn [for_each].
  assert (Hflush : flush_hit bad m1 = (Raise e, m1)).
  { unfold flush_hit. mstep. by rewrite (bind_Raise _ _ _ _ _ Hsrc). }
  by rewrite (bind_Raise _ _ _ _ _ Hflush).
Qed.

(** X19. With ["_source"] among the metadata fields nothing can be staged:
    the record would hold itself, which [json.dumps] refuses. A flush of a
    non-empty batch opens the staging file, creating it when missing, and
    raises at its first hit without writing a line; the exception is the
    [ValueError] of the circular reference when that hit carries a source
    dictionary. *)
Theorem X19_source_as_metadata_field_stages_nothing
    (h : hit) (rest : list hit) (m : machine) :
  "_source" ∈ meta_fields (the_opts m) ->
  exists e,
    flush_to_file (h :: rest) m = (Raise e, on_env open_append m) /\
    (well_formed h -> e = ValueError "Circular reference detected").
Proof.
  intros Hmeta. unfold flush_to_file. rewrite bind_modify_env. cbn [for_each].
  fold (on_env open_append m). set (m1 := on_env open_append m).
  destruct (hit_source h) as [data|] eqn:Hsrc.
  - exists (ValueError "Circular reference detected"). split; [|done].
    assert (Hflush : flush_hit h m1 =
                     (Raise (ValueError "Circular reference detected"), m1)).
    { unfold flush_hit. mstep.
      rewrite (bind_Ok _ _ _ _ _ (source_of_Ok _ _ _ Hsrc)).
      unfold refers_to_itself. by rewrite bool_decide_eq_true_2. }
    by rewrite (bind_Raise _ _ _ _ _ Hflush).
  - destruct (source_of_fails h m1 Hsrc) as (e & Hsource & _).
    exists e. split; [|intros [? ?]; congruence].
    assert (Hflush : flush_hit h m1 = (Raise e, m1)).
    { unfold flush_hit. mstep. by rewrite (bind_Raise _ _ _ _ _ Hsource). }
    by rewrite (bind_Raise _ _ _ _ _ Hflush).
Qed.

(** ** The staged record *)

Lemma dict_keys_pop (k : string) (d : dict) :
  dict_keys (dict_pop k d) = filter (fun k' => k' ≠ k) (dict_keys d).
Proof.
  induction d as [|[k' v] d IH]; [done|]. cbn [dict_pop dict_keys map fst].
  rewrite filter_cons. destruct (decide (k = k')) as [<-|Hk].
  - rewrite decide_False by (by intros ?). exact IH.
  - rewrite decide_True by (by intros ->). cbn [dict_keys map fst]. by f_equal.
Qed.

Lemma dict_keys_set (k : string) (v : json) (d : dict) :
  dict_keys (dict_set k v d) =
  if decide (k ∈ dict_keys d) then dict_keys d else dict_keys d ++ [k].
Proof.
  induction d as [|[k' v'] d IH]; cbn [dict_set dict_keys map fst].
  - rewrite decide_False; [done | apply not_elem_of_nil].
  - destruct (decide (k = k')) as [<-|Hk].
    + rewrite decide_True; [done | by left].
    + cbn [dict_keys map fst]. fold (dict_keys (dict_set k v d)). rewrite IH.
      fold (dict_keys d). destruct (decide (k ∈ dict_keys d)) as [Hin|Hnin].
      * rewrite decide_True; [done | by right].
      * rewrite decide_False; [done|]. rewrite elem_of_cons. tauto.
Qed.

Lemma filter_agree {A} (P Q : A -> Prop)
    `{!forall x, Decision (P x)} `{!forall x, Decision (Q x)} (l : list A) :
  (forall x, x ∈ l -> P x <-> Q x) -> filter P l = filter Q l.
Proof.
  induction l as [|x l IH]; intros Hagree; [done|]. rewrite !filter_cons.
  rewrite IH by (intros y Hy; apply Hagree; by right).
  destruct (decide (P x)) as [HP|HP].
  - rewrite decide_True; [done|]. apply Hagree; [by left | done].
  - rewrite decide_False; [done|]. intros HQ. apply HP, Hagree; [by left | done].
Qed.

Lemma dict_keys_add_meta (meta : list string) (h : hit) :
  forall data : dict,
    NoDup meta ->
    dict_keys (add_meta_fields meta h data) =
    dict_keys data ++ filter (fun f => f ∉ dict_keys data) meta.
Proof.
  unfold add_meta_fields.
  induction meta as [|g meta IH]; intros data Hnd; cbn [foldl].
  - by rewrite filter_nil, app_nil_r.
  - apply list.NoDup_cons in Hnd as [Hg Hnd]. rewrite IH by done.
    rewrite dict_keys_set, filter_cons.
    destruct (decide (g ∈ dict_keys data)) as [Hin|Hnin].
    + by rewrite decide_False by (by intros ?).
    + rewrite decide_True by done. rewrite <- app_assoc. cbn [app]. do 2 f_equal.
      apply filter_agree. intros x Hx.
      rewrite not_elem_of_app, list_elem_of_singleton. split; [by intros [? _]|].
      intros Hxd. split; [done|]. by intros ->.
Qed.

Lemma dict_keys_add_meta_NoDup (meta : list string) (h : hit) :
  forall data : dict,
    NoDup (dict_keys data) -> NoDup (dict_keys (add_meta_fields meta h data)).
Proof.
  unfold add_meta_fields.
  induction meta as [|g meta IH]; intros data Hnd; cbn [foldl]; [done|].
  apply IH. rewrite dict_keys_set. case_decide as Hg; [done|].
  apply list.NoDup_app. split; [done|]. split; [|apply list.NoDup_singleton].
  by intros x Hx ->%list_elem_of_singleton.
Qed.

(** X20. The record staged for a hit, key by key. A configured metadata
    field holds the hit's value for it (null when the hit has none),
    ["_meta"] is gone unless configured, and every other key of the source
    keeps its value. The keys stay distinct; they are the source's keys in
    their order, less ["_meta"], followed by the configured metadata fields
    that the source does not have, in the configured order: the order the
    CSV header takes from the first staged line. *)
Theorem X20_staged_record_keys_and_values
    (meta : list string) (data : dict) (h : hit) :
  let record := staged_record meta data h in
  (forall k, dict_get k record =
             if decide (k ∈ meta) then Some (dict_get_default k h)
             else if decide (k = "_meta") then None
             else dict_get k data) /\
  (NoDup (dict_keys data) -> NoDup (dict_keys record)) /\
  (NoDup meta ->
   dict_keys record =
   source_keys data ++ filter (fun f => f ∉ source_keys data) meta).
Proof.
  cbn zeta. unfold staged_record, source_keys. split; [|split].
  - intros k. rewrite add_meta_fields_get. case_decide; [done|].
    case_decide as Hk; [subst k; apply dict_get_pop_eq | by apply dict_get_pop_ne].
  - intros Hnd. apply dict_keys_add_meta_NoDup. rewrite dict_keys_pop.
    by apply list.NoDup_filter.
  - intros Hnd. rewrite dict_keys_add_meta by done. by rewrite dict_keys_pop.
Qed.

(** ** CSV materialization at its edges *)

(** X21. With no row counted but a staging file present, left by an
    earlier run, [write_to_csv] returns: it logs that there are no
    documents, deletes the staging file unread and leaves the output file
    as it was. *)
Theorem X21_no_rows_discards_the_staging_file (lines : list line) (m : machine) :
  rows_written (self m) <= 0 ->
  the_staging m = Some lines ->
  let msg := "There is no docs with selected field(s): "
             +:+ join "," (fields (the_opts m)) +:+ "." in
  write_to_csv m =
    (Ok tt, on_env (with_staging None) (recorded (EvLog INFO msg) m)) /\
  the_output (write_to_csv m).2 = the_output m.
Proof.
  intros Hrows Hst msg. unfold the_staging in Hst.
  assert (E : write_to_csv m =
              (Ok tt, on_env (with_staging None) (recorded (EvLog INFO msg) m))).
  { unfold write_to_csv. mstep. rewrite decide_False by lia.
    unfold log_info, emit, unlink_tmp. mstep. cbn [with_event staging].
    by rewrite Hst. }
  by rewrite E.
Qed.

(** X22. When rows were counted but no header can be read, the staging
    file being absent or empty or its first line not a JSON object,
    [write_to_csv] raises before it opens the output file: nothing at all
    has changed, and an output file of an earlier run is still intact. *)
Theorem X22_unreadable_header_changes_nothing (m : machine) :
  rows_written (self m) > 0 ->
  header_of (the_staging m) = None ->
  exists e,
    write_to_csv m = (Raise e, m) /\
    (the_staging m = None -> e = FileNotFoundError (tmp_file (self m))) /\
    (the_staging m = Some [] -> e = JSONDecodeError).
Proof.
  intros Hrows Hheader. unfold the_staging in *.
  unfold write_to_csv. mstep. rewrite decide_True by done.
  unfold read_first_line. mstep.
  destruct (staging (env m)) as [[|[v|text] ls]|] eqn:Hst; mstep.
  - by eexists.
  - destruct v; try done; unfold json_loads, keys_of; mstep; by eexists.
  - unfold json_loads. mstep. by eexists.
  - by eexists.
Qed.

Lemma write_row_fails (headers : list string) (l : line) (m : machine) :
  fits_header headers l = false ->
  exists e, (row <- json_loads l ;; writerow headers row) m = (Raise e, m).
Proof.
  intros Hfit. destruct l as [v|text]; unfold json_loads; mstep; [|by eexists].
  destruct v; try (by eexists). unfold writerow. simpl in Hfit. rewrite Hfit.
  by eexists.
Qed.

Lemma write_rows_partial (headers : list string)
    (good : list line) (bad : line) (rest : list line) (f : csv_file) (m : machine) :
  the_output m = Some f ->
  Forall (fun l => fits_header headers l = true) good ->
  fits_header headers bad = false ->
  exists e,
    for_each (good ++ bad :: rest)
      (fun l (_ : unit) => row <- json_loads l ;; writerow headers row) tt m =
    (Raise e, with_rows f (map (cells_of headers) good) m).
Proof.
  intros Hout Hgood Hbad.
  destruct (write_row_fails headers bad
              (with_rows f (map (cells_of headers) good) m) Hbad) as (e & Hrow).
  exists e. rewrite for_each_app.
  rewrite (bind_Ok _ _ _ _ _ (write_rows_Ok headers good f m Hout Hgood)).
  cbn [for_each]. by rewrite (bind_Raise _ _ _ _ _ Hrow).
Qed.

(** X23. A staged line the writer refuses, malformed or not an object or
    with a key outside the header, stops [write_to_csv] at that line: the
    exception propagates and the output file, truncated when it was opened,
    is left holding the header and the rows of the lines before it. The
    staging file is kept. *)
Theorem X23_refused_line_leaves_partial_output
    (d0 : dict) (good : list line) (bad : line) (rest : list line) (m : machine) :
  rows_written (self m) > 0 ->
  the_staging m = Some (Json (JObj d0) :: good ++ bad :: rest) ->
  Forall (fun l => fits_header (dict_keys d0) l = true) good ->
  fits_header (dict_keys d0) bad = false ->
  let headers := dict_keys d0 in
  exists e m',
    write_to_csv m = (Raise e, m') /\
    the_output m' =
      Some {| csv_delimiter := delimiter (the_opts m);
              csv_rows := map JStr headers
                          :: map (cells_of headers) (Json (JObj d0) :: good) |} /\
    the_staging m' = the_staging m.
Proof.
  intros Hrows Hst Hgood Hbad headers. rewrite Hst. unfold the_staging in Hst.
  unfold write_to_csv. mstep. rewrite decide_True by done.
  unfold read_first_line. mstep. rewrite Hst.
  unfold json_loads at 1, keys_of, writeheader. mstep.
  cbn [open_output append_row with_output output staging]. rewrite Hst.
  change (Json (JObj d0) :: good ++ bad :: rest)
    with ((Json (JObj d0) :: good) ++ bad :: rest).
  match goal with
  | |- context [bind (for_each _ _ tt) _ ?m1'] => set (m1 := m1')
  end.
  assert (Hout : the_output m1 =
                 Some {| csv_delimiter := delimiter (the_opts m);
                         csv_rows := [map JStr headers] |}) by reflexivity.
  assert (Hfits : Forall (fun l => fits_header headers l = true)
                         (Json (JObj d0) :: good)).
  { constructor; [apply fits_header_own | done]. }
  destruct (write_rows_partial headers _ bad rest _ m1 Hout Hfits Hbad)
    as (e & Hloop).
  rewrite (bind_Raise _ _ _ _ _ Hloop).
  eexists _, _. split; [reflexivity|].
  unfold with_rows, the_output, the_staging. simpl. by rewrite Hst.
Qed.

Lemma write_to_csv_keeps_the_rest :
  keeps (fun m => (with_csv_headers [] (self m), the_events is_request m,
                   the_cluster m))
        write_to_csv.
Proof.
  assert (Hrow : forall (fieldnames : list string) (row : json),
            keeps (fun m => (with_csv_headers [] (self m),
                             the_events is_request m, the_cluster m))
                  (writerow fieldnames row)).
  { intros fieldnames row. unfold writerow. destruct row; try apply keeps_raise.
    case_match; [|apply keeps_raise].
    intros m1. unfold modify_env, append_row. cbn [snd]. by case_match. }
  unfold write_to_csv, read_first_line, unlink_tmp, keys_of, writeheader.
  apply keeps_bind; [apply keeps_get_self | intros s].
  apply keeps_bind.
  - apply keeps_if_decide.
    + apply keeps_bind.
      { apply keeps_bind; [apply keeps_get_env | intros w].
        apply keeps_bind; [apply keeps_get_self | intros s'].
        destruct (staging w) as [[|[] ?]|]; by intros ?. }
      intros first_line. apply keeps_bind; [by destruct first_line|].
      intros headers. apply keeps_bind; [by intros ?|]. intros _.
      apply keeps_bind; [by intros ?|]. intros _.
      apply keeps_bind.
      { intros m1. unfold modify_env, append_row. cbn [snd]. by case_match. }
      intros _. apply keeps_bind; [apply keeps_get_env | intros w].
      destruct (staging w) as [file|]; [|apply keeps_raise].
      apply keeps_for_each. intros l [].
      apply keeps_bind; [by destruct l | intros row; apply Hrow].
    + intros m1. unfold log_info, emit, modify_env, the_events, the_trace.
      cbn [snd env trace with_event]. rewrite List.filter_app. simpl.
      by rewrite app_nil_r.
  - intros _. apply keeps_bind; [apply keeps_get_env | intros w].
    apply keeps_bind; [apply keeps_get_self | intros s'].
    destruct (staging w) as [file|]; by intros ?.
Qed.

(** X24. [write_to_csv] works on the files only: it sends no request to
    the cluster, and of the object it changes nothing but [csv_headers],
    however it ends. *)
Theorem X24_write_to_csv_is_local (m : machine) :
  let m' := (write_to_csv m).2 in
  with_csv_headers [] (self m') = with_csv_headers [] (self m) /\
  the_events is_request m' = the_events is_request m /\
  the_cluster m' = the_cluster m.
Proof.
  cbn zeta. pose proof (write_to_csv_keeps_the_rest m) as Hkeeps.
  cbv beta in Hkeeps. split; [|split].
  - exact (f_equal (fun t => t.1.1) Hkeeps).
  - exact (f_equal (fun t => t.1.2) Hkeeps).
  - exact (f_equal snd Hkeeps).
Qed.

(** ** From the hit to the CSV cell *)

(** X25. Staging and materialization composed: the row written for a hit
    holds, under each column, the hit's own value when the column is a
    configured metadata field (null when the hit has none), and otherwise
    the value of the source under that name, the empty string when the
    source has none or the column is ["_meta"]. *)
Theorem X25_csv_cell_of_a_hit
    (meta headers : list string) (h : hit) (data : dict) :
  hit_source h = Some data ->
  cells_of headers (staged_line meta h) = map (cell_of meta h data) headers.
Proof.
  intros Hsrc. unfold staged_line, json_dumps, cells_of, row_cells, staged_record.
  rewrite Hsrc. cbn [default]. apply map_ext. intros k. unfold cell_of.
  rewrite add_meta_fields_get. case_decide; [done|].
  case_decide as Hk; [subst k; by rewrite dict_get_pop_eq|].
  by rewrite dict_get_pop_ne.
Qed.

(** ** The two files *)

Lemma append_not_self (s t : string) : t ≠ EmptyString -> s +:+ t ≠ s.
Proof.
  intros Ht. induction s as [|a s IH]; simpl.
  - done.
  - intros [= H]. by apply IH.
Qed.

Lemma keeps_paths_differ {A} (c : M A) :
  keeps (fun m => (tmp_file (self m), output_file (the_opts m))) c ->
  preserves paths_differ c.
Proof.
  intros Hkeeps m Hm. specialize (Hkeeps m). cbv beta in Hkeeps.
  unfold paths_differ.
  rewrite (f_equal fst Hkeeps : tmp_file (self (c m).2) = _).
  by rewrite (f_equal snd Hkeeps : output_file (the_opts (c m).2) = _).
Qed.

(** X26. The staging file is never the output file. The object starts with
    the staging path set to the output path followed by [.tmp], which is a
    different path, and no method changes either of them. *)
Theorem X26_staging_path_is_not_the_output_path (fuel : nat) :
  (forall o w, paths_differ (start o w)) /\
  preserves paths_differ create_connection /\
  preserves paths_differ check_indexes /\
  preserves paths_differ (search_query fuel) /\
  preserves paths_differ write_to_csv /\
  preserves paths_differ clean_scroll_ids.
Proof.
  split; [|split; [|split; [|split; [|split]]]].
  - intros o w. unfold paths_differ, start, the_opts, init. cbn [self tmp_file opts].
    by apply append_not_self.
  - apply keeps_paths_differ. unfold create_connection, retry, cluster_health.
    solve_keeps.
  - apply keeps_paths_differ. unfold check_indexes, retry, check_indexes_body,
      indices_exists.
    solve_keeps.
  - intros m Hm.
    apply (search_steps_ind paths_differ m _); [|apply search_query_steps|exact Hm].
    by intros m1 m2 [| | | |sid m1' Hsid| |].
  - apply keeps_paths_differ. intros m.
    pose proof (write_to_csv_keeps_the_rest m) as Hkeeps. cbv beta in Hkeeps.
    pose proof (f_equal (fun t => t.1.1) Hkeeps) as Hself. cbv beta in Hself.
    cbn [fst] in Hself. unfold the_opts.
    by rewrite (f_equal tmp_file Hself : tmp_file (self (write_to_csv m).2) = _),
               (f_equal opts Hself : opts (self (write_to_csv m).2) = _).
  - apply keeps_paths_differ. unfold clean_scroll_ids, clear_scroll. solve_keeps.
Qed.

(** ** The further properties at sample inputs *)

(** X1 where the health check answers at once. *)
Lemma X1_witness :
  retry is_ConnectionError TIMES_TO_TRY RETRY_DELAY cluster_health m_no_match
  = cluster_health m_no_match.
Proof.
  apply (X1_retry_is_transparent is_ConnectionError TIMES_TO_TRY RETRY_DELAY
           cluster_health m_no_match).
  intros e He. vm_compute in He. discriminate He.
Defined.

(** X2 where the search fails three times and then answers. *)
Lemma X2_witness :
  search_query 2 m_three_failures =
  search_query_body 2
    (after_failures 3 RETRY_DELAY (search_query_body 2) m_three_failures) /\
  (search_query 2 m_three_failures).1 = Ok tt.
Proof.
  pose (m1 := after_failures 3 RETRY_DELAY (search_query_body 2) m_three_failures).
  assert (H1 : fails_in_a_row is_ConnectionError RETRY_DELAY (search_query_body 2)
                 3 m_three_failures m1).
  { apply (attempts_fail_spec is_ConnectionError 3 RETRY_DELAY (search_query_body 2)
             m_three_failures).
    vm_compute. reflexivity. }
  assert (H2 : (search_query_body 2 m1).1 = Ok tt) by (vm_compute; reflexivity).
  assert (H3 : lets_through is_ConnectionError (search_query_body 2 m1).1).
  { intros e He. rewrite H2 in He. discriminate He. }
  pose proof (X2_retry_returns_first_outcome_let_through is_ConnectionError
                TIMES_TO_TRY RETRY_DELAY (search_query_body 2) 3
                m_three_failures m1 ltac:(vm_compute; discriminate) H1 H3) as E.
  split; [exact E|].
  change (search_query 2 m_three_failures)
    with (retry is_ConnectionError TIMES_TO_TRY RETRY_DELAY (search_query_body 2)
            m_three_failures).
  rewrite E. exact H2.
Defined.

(** X3 where every search attempt fails. *)
Lemma X3_witness :
  (search_query 1 m_always_failing).1 = Raise (SystemExit 1) /\
  (is_ConnectionError (SystemExit 1) = false \/ SystemExit 1 = SystemExit 1).
Proof.
  assert (H : (retry is_ConnectionError TIMES_TO_TRY RETRY_DELAY (search_query_body 1)
                 m_always_failing).1 = Raise (SystemExit 1))
    by (vm_compute; reflexivity).
  split; [exact H|].
  exact (X3_retry_never_raises_what_it_catches is_ConnectionError TIMES_TO_TRY
           RETRY_DELAY (search_query_body 1) m_always_failing (SystemExit 1) H).
Defined.

(** X4 with a try count of zero. *)
Lemma X4_witness :
  retry is_ConnectionError 0 RETRY_DELAY (search_query_body 1) m_always_failing =
  (Raise (SystemExit 1),
   fatal (ConnectionError "Connection timed out")
         (search_query_body 1 m_always_failing).2).
Proof.
  assert (H : search_query_body 1 m_always_failing =
              (Raise (ConnectionError "Connection timed out"),
               (search_query_body 1 m_always_failing).2))
    by (vm_compute; reflexivity).
  exact (proj1 (X4_retry_without_tries_fails_at_once is_ConnectionError 0 RETRY_DELAY
                  (search_query_body 1) m_always_failing
                  (search_query_body 1 m_always_failing).2
                  (ConnectionError "Connection timed out")
                  ltac:(reflexivity) H eq_refl)).
Defined.

(** X5 for the health check under the decorator. *)
Lemma X5_witness :
  1 <= Z.of_nat (the_calls is_health (create_connection m_no_match).2) <= 4.
Proof.
  exact (X5_retry_attempts_are_bounded is_health is_ConnectionError TIMES_TO_TRY
           RETRY_DELAY cluster_health m_no_match cluster_health_one_call
           (fun _ _ => eq_refl) (fun _ => eq_refl)).
Defined.

(** X9 with the wildcard among the prefixes, and without it. *)
Lemma X9_witness :
  check_indexes m_wildcard = (Ok tt, with_index_prefixes ["_all"] m_wildcard) /\
  the_opts (check_indexes m_no_match).2 = the_opts m_no_match.
Proof.
  split.
  - apply (proj1 (X9_check_indexes_narrows_to_wildcard m_wildcard)). compute_done.
  - apply (proj2 (X9_check_indexes_narrows_to_wildcard m_no_match)).
    + vm_compute. reflexivity.
    + compute_done.
Defined.

(** X10 where the second output field is unknown to the index. *)
Lemma X10_witness :
  _validate_fields m_missing_field =
  (Raise (SystemExit 1),
   recorded (EvLog ERROR "Fields author doesn't exist in any index.")
            (asked ["logs"] m_missing_field)).
Proof.
  apply (X10_validate_fields_in_full sample_schema m_missing_field).
  - repeat constructor. discriminate.
  - intros n index Hin%list_elem_of_singleton. subst index.
    eexists. split; reflexivity.
Defined.

(** X11 with an index pattern as the index prefix. *)
Lemma X11_witness :
  search_query 1 m_pattern =
  (Raise (KeyError "logs-*"), asked ["logs-*"] m_pattern).
Proof.
  apply (X11_mapping_without_entry_raises_KeyError 1 sample_schema
           [] "logs-*" [] m_pattern).
  - constructor.
  - reflexivity.
  - intros n index Hin. by apply elem_of_nil in Hin.
  - intros n. eexists. split; reflexivity.
Defined.

(** X13 from an object without scroll ids. *)
Lemma X13_witness :
  NoDup (scroll_ids (self (write_to_temp_file 3 res_stream m_stream).2)) /\
  NoDup (scroll_ids (self (search_query 3 m_stream).2)).
Proof.
  apply (X13_scroll_ids_stay_distinct 3 res_stream m_stream). constructor.
Defined.

(** X17 with the wildcard among the prefixes. *)
Lemma X17_witness :
  (check_indexes ;; search_query 1) m_wildcard =
  (Raise (KeyError "_all"), asked ["_all"] (with_index_prefixes ["_all"] m_wildcard)).
Proof.
  apply (X17_wildcard_index_fails_at_validation 1 m_wildcard).
  - compute_done.
  - constructor.
  - intros n. eexists. split; reflexivity.
Defined.

(** X18 with a hit without a source between two well-formed hits. *)
Lemma X18_witness :
  flush_to_file [sample_hit "a" 1; bare_hit; sample_hit "b" 2] m_stream =
  (Raise (KeyError "_source"),
   stage_lines [staged_line ["_id"] (sample_hit "a" 1)] m_stream).
Proof.
  destruct (X18_flush_stops_at_first_unstageable_hit
              [sample_hit "a" 1] bare_hit [sample_hit "b" 2] m_stream)
    as (e & Hrun & He).
  - compute_done.
  - repeat constructor. by eexists.
  - reflexivity.
  - rewrite (He eq_refl) in Hrun. exact Hrun.
Defined.

(** X19 with one well-formed hit. *)
Lemma X19_witness :
  flush_to_file [sample_hit "a" 1] m_circular =
  (Raise (ValueError "Circular reference detected"), on_env open_append m_circular).
Proof.
  destruct (X19_source_as_metadata_field_stages_nothing
              (sample_hit "a" 1) [] m_circular) as (e & Hrun & He).
  - compute_done.
  - rewrite (He ltac:(by eexists)) in Hrun. exact Hrun.
Defined.

(** X20 at a source with keys of its own named ["_id"] and ["_meta"]. *)
Lemma X20_witness :
  dict_keys (staged_record ["_id"; "_index"]
               (default [] (hit_source (sample_hit "a" 1))) (sample_hit "a" 1))
  = ["title"; "_id"; "n"; "_index"].
Proof.
  destruct (X20_staged_record_keys_and_values ["_id"; "_index"]
              (default [] (hit_source (sample_hit "a" 1))) (sample_hit "a" 1))
    as (_ & _ & Hkeys).
  rewrite Hkeys; [reflexivity|]. compute_done.
Defined.

(** X21 with a stale staging file. *)
Lemma X21_witness :
  (write_to_csv m_stale_csv).1 = Ok tt /\
  the_staging (write_to_csv m_stale_csv).2 = None /\
  the_output (write_to_csv m_stale_csv).2 = the_output m_stale_csv.
Proof.
  destruct (X21_no_rows_discards_the_staging_file [Json (JObj d_1x)] m_stale_csv)
    as (Hrun & Hout).
  - reflexivity.
  - reflexivity.
  - split; [by rewrite Hrun|]. split; [by rewrite Hrun | exact Hout].
Defined.

(** X22 with the staging file gone. *)
Lemma X22_witness :
  write_to_csv m_lost = (Raise (FileNotFoundError "out.csv.tmp"), m_lost).
Proof.
  destruct (X22_unreadable_header_changes_nothing m_lost) as (e & Hrun & He & _).
  - reflexivity.
  - reflexivity.
  - rewrite (He eq_refl) in Hrun. exact Hrun.
Defined.

(** X23 with a third line that does not parse. *)
Lemma X23_witness :
  exists e m',
    write_to_csv m_refused = (Raise e, m') /\
    the_output m' =
      Some {| csv_delimiter := ",";
              csv_rows := [[JStr "a"; JStr "b"]; [JInt 1; JStr "x"]; [JInt 2; JStr "y"]] |} /\
    the_staging m' = the_staging m_refused.
Proof.
  apply (X23_refused_line_leaves_partial_output d_1x [Json (JObj d_2y)]
           (Malformed "{") [Json (JObj [("a", JInt 3)])] m_refused).
  - reflexivity.
  - reflexivity.
  - repeat constructor.
  - reflexivity.
Defined.

(** X25 at the columns of the sample hit. *)
Lemma X25_witness :
  cells_of ["title"; "_id"; "n"; "_meta"; "_score"]
    (staged_line ["_id"] (sample_hit "a" 1))
  = [JStr "t"; JStr "a"; JInt 1; JStr EmptyString; JStr EmptyString].
Proof.
  rewrite (X25_csv_cell_of_a_hit ["_id"] ["title"; "_id"; "n"; "_meta"; "_score"]
             (sample_hit "a" 1)
             [("title", JStr "t"); ("_id", JStr "in-source");
              ("_meta", JObj []); ("n", JInt 1)] eq_refl).
  reflexivity.
Defined.
